(** * data_merge_utils: a shallow embedding of [DataMergeUtils]

    The development follows [plugins/module_utils/data_merge_utils.py].
    Python values are a tagged tree; a [dict] is an association list in
    insertion order (Python 3.7+) whose keys are unique; exceptions are an
    explicit result type; the recursion of [get_new_merged_data] through
    [get_new_merged_dict] and [get_new_merged_list] is driven by a counter
    that bounds the number of nested activations of the dispatcher.

    Scalars are [None], [bool], [int], [float] and [str]. A [float] is a
    signed zero, a signed infinity or a signed mantissa with a binary
    exponent; NaN, whose membership in a list depends on the identity of
    the object, is left out. The keys of a dict are integers (the
    positions of a list seen as a dict) or strings. *)

From Stdlib Require Import ZArith List String Bool Lia Arith Sorted FinFun.
Import ListNotations.

Local Open Scope string_scope.

(* ------------------------------------------------------------------ *)
(** ** Values *)

Inductive Key : Type :=
| KInt (i : Z)
| KStr (s : string).

(** A [float] other than NaN: [FFinite neg m e] is [m * 2 ^ e], negated
    when [neg] is set. *)
Inductive PyFloat : Type :=
| FZero (neg : bool)
| FInf (neg : bool)
| FFinite (neg : bool) (m : positive) (e : Z).

#[local] Set Warnings "-register-all".

Inductive Value : Type :=
| VNone
| VBool (b : bool)
| VInt (i : Z)
| VFloat (f : PyFloat)
| VStr (s : string)
| VList (l : list Value)
| VDict (d : list (Key * Value)).

Definition Dict : Type := list (Key * Value).

Definition key_eqb (a b : Key) : bool :=
  match a, b with
  | KInt x, KInt y => Z.eqb x y
  | KStr x, KStr y => String.eqb x y
  | _, _ => false
  end.

(** Induction over the tree, with the elements of a list and the values of
    a dict as induction hypotheses. *)
Section ValueInduction.
Variable P : Value -> Prop.
Hypothesis HNone : P VNone.
Hypothesis HBool : forall b, P (VBool b).
Hypothesis HInt : forall i, P (VInt i).
Hypothesis HFloat : forall f, P (VFloat f).
Hypothesis HStr : forall s, P (VStr s).
Hypothesis HList : forall l, Forall P l -> P (VList l).
Hypothesis HDict : forall d, Forall (fun kv => P (snd kv)) d -> P (VDict d).

Fixpoint Value_tree_ind (v : Value) : P v :=
  match v with
  | VNone => HNone
  | VBool b => HBool b
  | VInt i => HInt i
  | VFloat f => HFloat f
  | VStr s => HStr s
  | VList l =>
      HList l
        ((fix elems (l : list Value) : Forall P l :=
            match l with
            | [] => Forall_nil P
            | x :: r => Forall_cons x (Value_tree_ind x) (elems r)
            end) l)
  | VDict d =>
      HDict d
        ((fix items (d : Dict) : Forall (fun kv => P (snd kv)) d :=
            match d with
            | [] => Forall_nil _
            | kv :: r =>
                Forall_cons (P := fun kv => P (snd kv)) kv
                  (Value_tree_ind (snd kv)) (items r)
            end) d)
  end.
End ValueInduction.

(** [isinstance(v, list)], [isinstance(v, dict)] and
    [isinstance(v, (dict, list))]. *)
Definition is_list (v : Value) : bool :=
  match v with VList _ => true | _ => false end.

Definition is_dict (v : Value) : bool :=
  match v with VDict _ => true | _ => false end.

Definition is_dict_or_list (v : Value) : bool := is_dict v || is_list v.

(** [isinstance(current, type(expected))]: the class of [current] is the
    class of [expected] or a subclass of it; [bool] is a subclass of [int],
    and neither [int] nor [bool] is a subclass of [float]. *)
Definition isinstance_type_of (current expected : Value) : bool :=
  match expected, current with
  | VNone, VNone => true
  | VBool _, VBool _ => true
  | VInt _, VInt _ => true
  | VInt _, VBool _ => true
  | VFloat _, VFloat _ => true
  | VStr _, VStr _ => true
  | VList _, VList _ => true
  | VDict _, VDict _ => true
  | _, _ => false
  end.

(** [copy.deepcopy]: a structural clone. *)
Fixpoint deepcopy (v : Value) : Value :=
  match v with
  | VList l => VList (map deepcopy l)
  | VDict d => VDict (map (fun kv => (fst kv, deepcopy (snd kv))) d)
  | VNone => VNone
  | VBool b => VBool b
  | VInt i => VInt i
  | VFloat f => VFloat f
  | VStr s => VStr s
  end.

(** Nesting depth of a tree: scalars have depth 0. *)
Fixpoint depth (v : Value) : nat :=
  match v with
  | VList l => S (fold_right (fun x acc => Nat.max (depth x) acc) 0 l)
  | VDict d => S (fold_right (fun kv acc => Nat.max (depth (snd kv)) acc) 0 d)
  | _ => 0
  end.

(* ------------------------------------------------------------------ *)
(** ** Dict primitives on association lists *)

Fixpoint dict_get (d : Dict) (k : Key) : option Value :=
  match d with
  | [] => None
  | (k', v) :: r => if key_eqb k' k then Some v else dict_get r k
  end.

(** [d[k] = v]: an existing key keeps its position, a new key goes last. *)
Fixpoint dict_set (d : Dict) (k : Key) (v : Value) : Dict :=
  match d with
  | [] => [(k, v)]
  | (k', v') :: r =>
      if key_eqb k' k then (k', v) :: r else (k', v') :: dict_set r k v
  end.

Fixpoint dict_del (d : Dict) (k : Key) : Dict :=
  match d with
  | [] => []
  | (k', v') :: r => if key_eqb k' k then r else (k', v') :: dict_del r k
  end.

Definition dict_keys (d : Dict) : list Key := map fst d.

Definition dict_values (d : Dict) : list Value := map snd d.

Definition dict_mem (d : Dict) (k : Key) : bool :=
  match dict_get d k with Some _ => true | None => false end.

(** A Python dict holds each key once. *)
Definition wf_dict (d : Dict) : Prop := NoDup (dict_keys d).

(* ------------------------------------------------------------------ *)
(** ** Python equality and membership *)

(** The mantissa of a finite [float] with its sign. *)
Definition float_signed (neg : bool) (m : positive) : Z :=
  if neg then Z.neg m else Z.pos m.

(** [a == b] on two floats: the two zeros are equal, and two finite
    floats are compared by value. *)
Definition float_eqb (a b : PyFloat) : bool :=
  match a, b with
  | FZero _, FZero _ => true
  | FInf s, FInf t => Bool.eqb s t
  | FFinite s m e, FFinite t n f =>
      let lo := Z.min e f in
      Z.eqb (float_signed s m * 2 ^ (e - lo)) (float_signed t n * 2 ^ (f - lo))
  | _, _ => false
  end.

(** [i == f] on an [int] and a [float]: the comparison is exact. *)
Definition int_float_eqb (i : Z) (f : PyFloat) : bool :=
  match f with
  | FZero _ => Z.eqb i 0
  | FInf _ => false
  | FFinite s m e =>
      if Z.leb 0 e then Z.eqb i (float_signed s m * 2 ^ e)
      else Z.eqb (i * 2 ^ (- e)) (float_signed s m)
  end.

(** [a == b]. Lists compare element-wise, dicts key-wise whatever the
    insertion order, [bool] compares with [int] and [float] as 0 and 1,
    [int] and [float] compare by value. *)
Fixpoint py_eq (a b : Value) : bool :=
  match a, b with
  | VNone, VNone => true
  | VBool x, VBool y => Bool.eqb x y
  | VBool x, VInt y => Z.eqb (Z.b2z x) y
  | VInt x, VBool y => Z.eqb x (Z.b2z y)
  | VInt x, VInt y => Z.eqb x y
  | VBool x, VFloat y => int_float_eqb (Z.b2z x) y
  | VFloat x, VBool y => int_float_eqb (Z.b2z y) x
  | VInt x, VFloat y => int_float_eqb x y
  | VFloat x, VInt y => int_float_eqb y x
  | VFloat x, VFloat y => float_eqb x y
  | VStr x, VStr y => String.eqb x y
  | VList xs, VList ys =>
      (fix elems (xs ys : list Value) : bool :=
         match xs, ys with
         | [], [] => true
         | x :: xr, y :: yr => py_eq x y && elems xr yr
         | _, _ => false
         end) xs ys
  | VDict xs, VDict ys =>
      Nat.eqb (List.length xs) (List.length ys) &&
      (fix items (xs : Dict) : bool :=
         match xs with
         | [] => true
         | (k, x) :: xr =>
             match dict_get ys k with
             | Some y => py_eq x y && items xr
             | None => false
             end
         end) xs
  | _, _ => false
  end.

(** [elem in the_list]. *)
Definition py_in (elem : Value) (the_list : list Value) : bool :=
  existsb (fun x => py_eq x elem) the_list.

(* ------------------------------------------------------------------ *)
(** ** Results *)

Inductive PyExn : Type :=
| ValueError
| TypeError
| KeyError
| IndexError
| AttributeError.

(** The outcome of a call: a value, a raised exception, or the activation
    budget of the dispatcher used up. *)
Inductive Res (A : Type) : Type :=
| Ret (a : A)
| Raise (e : PyExn)
| OutOfFuel.

Arguments Ret {A} a.
Arguments Raise {A} e.
Arguments OutOfFuel {A}.

Definition bind {A B : Type} (m : Res A) (f : A -> Res B) : Res B :=
  match m with
  | Ret a => f a
  | Raise e => Raise e
  | OutOfFuel => OutOfFuel
  end.

Notation "x <- m ;; k" := (bind m (fun x => k))
  (at level 61, m at next level, right associativity).

(** [for k in ks: s = body(s, k)], stopping at the first exception. *)
Fixpoint for_each {St K : Type} (ks : list K) (s : St)
  (body : St -> K -> Res St) : Res St :=
  match ks with
  | [] => Ret s
  | k :: r => s' <- body s k ;; for_each r s' body
  end.

(* ------------------------------------------------------------------ *)
(** ** Attribute and item access on an arbitrary object

    The source never checks that an operand is a dict before it calls a
    dict method on it; each access below fails the way Python does on an
    object of the wrong class. *)

(** Position of index [i] in a sequence of length [n]: negative indices
    count from the end. *)
Definition list_index (n : nat) (i : Z) : option nat :=
  let len := Z.of_nat n in
  if ((0 <=? i) && (i <? len))%Z then Some (Z.to_nat i)
  else if ((- len <=? i) && (i <? 0))%Z then Some (Z.to_nat (len + i))
  else None.

Fixpoint list_update (l : list Value) (n : nat) (v : Value) : list Value :=
  match l, n with
  | [], _ => []
  | _ :: r, O => v :: r
  | x :: r, S m => x :: list_update r m v
  end.

Fixpoint list_remove_at (l : list Value) (n : nat) : list Value :=
  match l, n with
  | [], _ => []
  | _ :: r, O => r
  | x :: r, S m => x :: list_remove_at r m
  end.

(** [obj.get(key)]: only a dict has the method. *)
Definition py_get (obj : Value) (key : Key) : Res Value :=
  match obj with
  | VDict d =>
      match dict_get d key with
      | Some v => Ret v
      | None => Ret VNone
      end
  | _ => Raise AttributeError
  end.

(** [obj[key]]. *)
Definition py_getitem (obj : Value) (key : Key) : Res Value :=
  match obj with
  | VDict d =>
      match dict_get d key with
      | Some v => Ret v
      | None => Raise KeyError
      end
  | VList l =>
      match key with
      | KInt i =>
          match list_index (List.length l) i with
          | Some n => Ret (nth n l VNone)
          | None => Raise IndexError
          end
      | KStr _ => Raise TypeError
      end
  | VStr s =>
      match key with
      | KInt i =>
          match list_index (String.length s) i with
          | Some n => Ret (VStr (substring n 1 s))
          | None => Raise IndexError
          end
      | KStr _ => Raise TypeError
      end
  | _ => Raise TypeError
  end.

(** [obj[key] = v]. *)
Definition py_setitem (obj : Value) (key : Key) (v : Value) : Res Value :=
  match obj with
  | VDict d => Ret (VDict (dict_set d key v))
  | VList l =>
      match key with
      | KInt i =>
          match list_index (List.length l) i with
          | Some n => Ret (VList (list_update l n v))
          | None => Raise IndexError
          end
      | KStr _ => Raise TypeError
      end
  | _ => Raise TypeError
  end.

(** [obj.pop(key)], keeping the object and dropping the popped value. *)
Definition py_pop (obj : Value) (key : Key) : Res Value :=
  match obj with
  | VDict d =>
      if dict_mem d key then Ret (VDict (dict_del d key)) else Raise KeyError
  | VList l =>
      match key with
      | KInt i =>
          match list_index (List.length l) i with
          | Some n => Ret (VList (list_remove_at l n))
          | None => Raise IndexError
          end
      | KStr _ => Raise TypeError
      end
  | _ => Raise AttributeError
  end.

(* ------------------------------------------------------------------ *)
(** ** Configuration *)

Record DataMergeUtils : Type := mkDataMergeUtils {
  _merge_type : string;
  _list_diff_type : string
}.

Definition str_in (value : string) (choices : list string) : bool :=
  existsb (String.eqb value) choices.

(** The [merge_type] property setter. *)
Definition set_merge_type (self : DataMergeUtils) (value : string)
  : Res DataMergeUtils :=
  if negb (str_in value ["identic"; "present"; "absent"]) then Raise ValueError
  else Ret (mkDataMergeUtils value (_list_diff_type self)).

(** The [list_diff_type] property setter. *)
Definition set_list_diff_type (self : DataMergeUtils) (value : string)
  : Res DataMergeUtils :=
  if negb (str_in value ["value"; "index"]) then Raise ValueError
  else Ret (mkDataMergeUtils (_merge_type self) value).

(** The object before [__init__] has run: no attribute is set yet. *)
Definition blank : DataMergeUtils := mkDataMergeUtils "" "".

(** [__init__]: [self.merge_type = merge_type] goes through the property
    setter, [self._list_diff_type = list_diff_type] writes the attribute. *)
Definition __init__ (merge_type list_diff_type : string) : Res DataMergeUtils :=
  self <- set_merge_type blank merge_type ;;
  Ret (mkDataMergeUtils (_merge_type self) list_diff_type).

(** The default of the second argument of [__init__]. *)
Definition default_list_diff_type : string := "value".

(* ------------------------------------------------------------------ *)
(** ** The merge *)

Definition Method : Type := DataMergeUtils -> Value -> Value -> Res Value.

(** The [_check_identic] decorator. *)
Definition _check_identic (func : Method) : Method :=
  fun self current expected =>
    if String.eqb (_merge_type self) "identic" then Ret (deepcopy expected)
    else func self current expected.

(** [dict(list(enumerate(the_list)))]. *)
Definition _convert_list_to_dict (the_list : list Value) : Dict :=
  combine (map (fun n => KInt (Z.of_nat n)) (seq 0 (List.length the_list)))
    the_list.

(** [[val for key, val in the_dict.items()]]: only a dict has the method. *)
Definition _convert_dict_to_list (the_dict : Value) : Res Value :=
  match the_dict with
  | VDict d => Ret (VList (dict_values d))
  | _ => Raise AttributeError
  end.

Definition _get_new_merged_list_with_value_diff
  (self : DataMergeUtils) (current expected : list Value) : Res Value :=
  if String.eqb (_merge_type self) "present" then
    Ret (VList (current
                ++ filter (fun elem => negb (py_in elem current)) expected))
  else if String.eqb (_merge_type self) "absent" then
    Ret (VList (filter (fun elem => negb (py_in elem expected)) current))
  else Raise TypeError.

(** The [else] branch of the loop of [get_new_merged_dict]: the two values
    are not both a dict or a list. *)
Definition merged_dict_else
  (self : DataMergeUtils) (expected : Dict) (merged : Value) (key : Key)
  : Res Value :=
  if String.eqb (_merge_type self) "present" then
    expected_key <- py_getitem (VDict expected) key ;;
    match expected_key with
    | VNone => Ret merged
    | _ => py_setitem merged key expected_key
    end
  else if String.eqb (_merge_type self) "absent" then
    merged_get <- py_get merged key ;;
    expected_key <- py_getitem (VDict expected) key ;;
    if py_eq merged_get expected_key then py_pop merged key
    else Ret merged
  else Raise TypeError.

Section Methods.
(** [self.get_new_merged_data] as seen from the other methods. *)
Variable self_get_new_merged_data : Method.

(** One turn of the loop of [get_new_merged_dict] over [expected.keys()]. *)
Definition merged_dict_step
  (self : DataMergeUtils) (current : Value) (expected : Dict)
  (merged : Value) (key : Key) : Res Value :=
  let expected_get := match dict_get expected key with
                      | Some v => v
                      | None => VNone
                      end in
  if is_dict_or_list expected_get then
    current_get <- py_get current key ;;
    if is_dict_or_list current_get then
      merged_key <- py_getitem merged key ;;
      expected_key <- py_getitem (VDict expected) key ;;
      new <- self_get_new_merged_data self merged_key expected_key ;;
      py_setitem merged key new
    else merged_dict_else self expected merged key
  else merged_dict_else self expected merged key.

Definition get_new_merged_dict_of : Method :=
  _check_identic (fun self current expected =>
    let merged := deepcopy current in
    match expected with
    | VDict d => for_each (dict_keys d) merged (merged_dict_step self current d)
    | _ => Raise AttributeError
    end).

Definition _get_new_merged_list_with_index_diff_of
  (self : DataMergeUtils) (current expected : list Value) : Res Value :=
  let current_dict := _convert_list_to_dict current in
  let expected_dict := _convert_list_to_dict expected in
  merged_dict <- get_new_merged_dict_of self (VDict current_dict)
                   (VDict expected_dict) ;;
  _convert_dict_to_list merged_dict.

(** The dispatcher hands two lists to [get_new_merged_list]
    ([dispatcher_passes_two_lists]); operands outside its signature
    [(list, list)] end the model with [TypeError]. *)
Definition get_new_merged_list_of : Method :=
  _check_identic (fun self current expected =>
    match current, expected with
    | VList c, VList e =>
        if String.eqb (_list_diff_type self) "value" then
          _get_new_merged_list_with_value_diff self c e
        else if String.eqb (_list_diff_type self) "index" then
          _get_new_merged_list_with_index_diff_of self c e
        else Raise TypeError
    | _, _ => Raise TypeError
    end).

Definition get_new_merged_data_of : Method :=
  _check_identic (fun self current expected =>
    if negb (isinstance_type_of current expected) then
      if String.eqb (_merge_type self) "present" then Ret (deepcopy expected)
      else if String.eqb (_merge_type self) "absent" then Ret (deepcopy current)
      else Raise TypeError
    else if is_list current then
      get_new_merged_list_of self current expected
    else get_new_merged_dict_of self current expected).
End Methods.

(** [fuel] bounds the number of nested activations of the dispatcher. *)
Fixpoint get_new_merged_data (fuel : nat) : Method :=
  match fuel with
  | O => fun _ _ _ => OutOfFuel
  | S f => get_new_merged_data_of (get_new_merged_data f)
  end.

Definition get_new_merged_dict (fuel : nat) : Method :=
  get_new_merged_dict_of (get_new_merged_data fuel).

Definition get_new_merged_list (fuel : nat) : Method :=
  get_new_merged_list_of (get_new_merged_data fuel).

Definition _get_new_merged_list_with_index_diff (fuel : nat)
  : DataMergeUtils -> list Value -> list Value -> Res Value :=
  _get_new_merged_list_with_index_diff_of (get_new_merged_data fuel).

(* ------------------------------------------------------------------ *)
(** ** Vocabulary of the specification *)

(** The four shapes of a value. *)
Inductive Kind : Type := KindNull | KindScalar | KindSequence | KindMapping.

Definition kind_of (v : Value) : Kind :=
  match v with
  | VNone => KindNull
  | VBool _ | VInt _ | VFloat _ | VStr _ => KindScalar
  | VList _ => KindSequence
  | VDict _ => KindMapping
  end.

(** A number: an [int] or a [float]. *)
Definition is_number (v : Value) : bool :=
  match v with
  | VInt _ | VFloat _ => true
  | _ => false
  end.

(** Two scalars of one kind: two booleans, two numbers or two strings. *)
Definition same_scalar_kind (a b : Value) : bool :=
  match a, b with
  | VBool _, VBool _ => true
  | VStr _, VStr _ => true
  | _, _ => is_number a && is_number b
  end.

(** Two scalars of one class: two booleans, two ints, two floats or two
    strings. *)
Definition same_scalar_class (a b : Value) : bool :=
  match a, b with
  | VBool _, VBool _ => true
  | VInt _, VInt _ => true
  | VFloat _, VFloat _ => true
  | VStr _, VStr _ => true
  | _, _ => false
  end.

(** The recursion case of the mapping merger as the specification words
    it: the key is held by [current], and both values are mappings or both
    are sequences. *)
Definition same_composite_kind (current_k : option Value) (expected_k : Value)
  : bool :=
  match current_k, expected_k with
  | Some (VDict _), VDict _ => true
  | Some (VList _), VList _ => true
  | _, _ => false
  end.

(** [x] is deep-equal to some element of [l]. *)
Definition deep_member (x : Value) (l : list Value) : Prop :=
  exists y, In y l /\ py_eq y x = true.

(** [Selects P l l']: [l'] holds the elements of [l] that satisfy [P], each
    as often as it occurs and in the order of [l]. *)
Inductive Selects (P : Value -> Prop) : list Value -> list Value -> Prop :=
| Selects_nil : Selects P [] []
| Selects_keep x l l' : P x -> Selects P l l' -> Selects P (x :: l) (x :: l')
| Selects_drop x l l' : ~ P x -> Selects P l l' -> Selects P (x :: l) l'.

(** Order on keys: integers by value, before strings. *)
Definition key_leb (a b : Key) : bool :=
  match a, b with
  | KInt x, KInt y => Z.leb x y
  | KInt _, KStr _ => true
  | KStr _, KInt _ => false
  | KStr x, KStr y => String.leb x y
  end.

Fixpoint insert_by_key (kv : Key * Value) (d : Dict) : Dict :=
  match d with
  | [] => [kv]
  | kv' :: r =>
      if key_leb (fst kv) (fst kv') then kv :: d
      else kv' :: insert_by_key kv r
  end.

Fixpoint sort_by_key (d : Dict) : Dict :=
  match d with
  | [] => []
  | kv :: r => insert_by_key kv (sort_by_key r)
  end.

(** Step 1 of the ByIndex strategy: the mapping keyed by position. *)
Fixpoint spec_positional_mapping (start : Z) (l : list Value) : Dict :=
  match l with
  | [] => []
  | x :: r => (KInt start, x) :: spec_positional_mapping (start + 1) r
  end.

(** Step 3 of the ByIndex strategy: the values in ascending key order. *)
Definition spec_values_by_ascending_key (d : Dict) : list Value :=
  map snd (sort_by_key d).

(** The three-step transform of the ByIndex strategy, with the mapping
    merger of the source as step 2. *)
Definition spec_merge_by_index (fuel : nat) (self : DataMergeUtils)
  (current expected : list Value) : Res Value :=
  merged <- get_new_merged_dict fuel self
              (VDict (spec_positional_mapping 0 current))
              (VDict (spec_positional_mapping 0 expected)) ;;
  match merged with
  | VDict d => Ret (VList (spec_values_by_ascending_key d))
  | _ => Raise AttributeError
  end.

(** Keys in strictly ascending order. *)
Definition key_ltb (a b : Key) : bool := key_leb a b && negb (key_eqb a b).

Definition ascending (ks : list Key) : Prop :=
  StronglySorted (fun a b => key_ltb a b = true) ks.

(** The errors of the specification's taxonomy: [InvalidConfiguration] is
    the [ValueError] of the setters, [UnsupportedMergeType] the [TypeError]
    of the merge methods. *)
Definition in_taxonomy (e : PyExn) : bool :=
  match e with
  | ValueError | TypeError => true
  | _ => false
  end.

(** What [present] leaves at a key of [expected] outside the recursion
    case: the value of [current] when the expected value is [None], the
    expected value otherwise. *)
Definition present_at (current : Dict) (key : Key) (e : Value) : option Value :=
  match e with
  | VNone => dict_get current key
  | _ => Some e
  end.

(** The state of the positional mapping of a sequence of length [n] when
    the loop of the mapping merger reaches position [j]: its keys ascend,
    lie below [max n j], and those from [j] to [n - 1] are still there. *)
Definition positional_inv (n j : Z) (d : Dict) : Prop :=
  ascending (dict_keys d)
  /\ (forall k, In k (dict_keys d) ->
      exists z, k = KInt z /\ (z < Z.max n j)%Z)
  /\ (forall z, (j <= z < n)%Z -> In (KInt z) (dict_keys d)).

(** [r1] is [r2], unless the budget ran out before [r1] was reached. *)
Definition res_le {A : Type} (r1 r2 : Res A) : Prop :=
  r1 = OutOfFuel \/ r1 = r2.

(** The values Python can build: every dict, at any depth, holds each of
    its keys once. *)
Fixpoint wf_value (v : Value) : Prop :=
  match v with
  | VList l =>
      (fix elems (l : list Value) : Prop :=
         match l with
         | [] => True
         | x :: r => wf_value x /\ elems r
         end) l
  | VDict d =>
      NoDup (map fst d) /\
      (fix items (d : Dict) : Prop :=
         match d with
         | [] => True
         | kv :: r => wf_value (snd kv) /\ items r
         end) d
  | _ => True
  end.

(** [v is None]. *)
Definition is_none (v : Value) : bool :=
  match v with VNone => true | _ => false end.

(** [Subseq l l']: [l] is [l'] with some elements left out. *)
Inductive Subseq {A : Type} : list A -> list A -> Prop :=
| Subseq_nil : Subseq [] []
| Subseq_keep x l l' : Subseq l l' -> Subseq (x :: l) (x :: l')
| Subseq_drop x l l' : Subseq l l' -> Subseq l (x :: l').

(** No [None] among the values of a dict or the elements of a list, at
    any depth. *)
Fixpoint null_free (v : Value) : bool :=
  match v with
  | VNone => false
  | VList l => forallb null_free l
  | VDict d => forallb (fun kv => null_free (snd kv)) d
  | _ => true
  end.

(** Both fields within the enumerations of the setters. *)
Definition valid_config (self : DataMergeUtils) : Prop :=
  (_merge_type self = "identic" \/ _merge_type self = "present"
   \/ _merge_type self = "absent")
  /\ (_list_diff_type self = "value" \/ _list_diff_type self = "index").

(** What [absent] leaves at a key of [expected] outside the recursion
    case: nothing when [current] holds the key with an equal value, the
    value of [current] otherwise. *)
Definition absent_at (current : Dict) (key : Key) (e : Value) : option Value :=
  match dict_get current key with
  | Some g => if py_eq g e then None else Some g
  | None => None
  end.

(** The keys [present] adds to a mapping: those of [expected] that
    [current] does not hold and whose value is not [None]. *)
Definition present_new_keys (current expected : Dict) : list Key :=
  filter (fun k => negb (dict_mem current k)
                   && negb (is_none (match dict_get expected k with
                                     | Some v => v
                                     | None => VNone
                                     end)))
    (dict_keys expected).

(** A call that returns, or raises [KeyError]. *)
Definition ret_or_key_error (r : Res Value) : Prop :=
  (exists v, r = Ret v) \/ r = Raise KeyError.

(** A call that returns a dict, or raises [KeyError]. *)
Definition dict_or_key_error (r : Res Value) : Prop :=
  (exists m, r = Ret (VDict m)) \/ r = Raise KeyError.

(** What the loop of the mapping merger leaves under [present] at a key
    [k] of [expected] with value [e], given the dispatcher [rec] used for
    the nested pairs: [o] is the entry of the merged dict at [k]. *)
Definition present_key_outcome (rec : Method) (self : DataMergeUtils)
  (current : Dict) (k : Key) (e : Value) (o : option Value) : Prop :=
  match dict_get current k with
  | Some c =>
      if is_dict_or_list e && is_dict_or_list c
      then exists r, rec self c e = Ret r /\ o = Some r
      else if is_none e then o = Some c else o = Some e
  | None => if is_none e then o = None else o = Some e
  end.

(** Merging by index, position by position. Where both lists have an
    element, [index_position] gives what stays at that position: the merge
    of the two when both are a dict or a list, otherwise, under [present],
    the expected element unless it is [None], and, under [absent], the
    current element unless the two are equal. *)
Definition index_position (rec : Method) (self : DataMergeUtils)
  (c e : Value) : Res (list Value) :=
  if is_dict_or_list e && is_dict_or_list c then
    r <- rec self c e ;; Ret [r]
  else if String.eqb (_merge_type self) "present" then
    if is_none e then Ret [c] else Ret [e]
  else if String.eqb (_merge_type self) "absent" then
    if py_eq c e then Ret [] else Ret [c]
  else Raise TypeError.

(** Where only [expected] has an element: under [present] it is appended
    unless it is [None]; under [absent] a [None] raises [KeyError] and any
    other element is dropped. *)
Definition index_leftover (self : DataMergeUtils) (e : Value)
  : Res (list Value) :=
  if String.eqb (_merge_type self) "present" then
    if is_none e then Ret [] else Ret [e]
  else if String.eqb (_merge_type self) "absent" then
    if is_none e then Raise KeyError else Ret []
  else Raise TypeError.

Fixpoint index_zip (rec : Method) (self : DataMergeUtils)
  (current expected : list Value) : Res (list Value) :=
  match expected with
  | [] => Ret current
  | e :: er =>
      match current with
      | c :: cr =>
          head <- index_position rec self c e ;;
          tail <- index_zip rec self cr er ;;
          Ret (head ++ tail)%list
      | [] =>
          head <- index_leftover self e ;;
          tail <- index_zip rec self [] er ;;
          Ret (head ++ tail)%list
      end
  end.

(* ------------------------------------------------------------------ *)
(** ** Basic facts *)

Lemma deepcopy_id (v : Value) : deepcopy v = v.
Proof.
  induction v as [| | | | | l IH | d IH] using Value_tree_ind; simpl; trivial.
  - f_equal. induction IH as [|x r Hx _ IHr]; simpl; congruence.
  - f_equal. induction IH as [|[k x] r Hx _ IHr]; simpl in *; congruence.
Qed.

Lemma key_eqb_eq (a b : Key) : key_eqb a b = true <-> a = b.
Proof.
  destruct a, b; simpl; split; intro H; try discriminate.
  - apply Z.eqb_eq in H. congruence.
  - inversion H. apply Z.eqb_refl.
  - apply String.eqb_eq in H. congruence.
  - inversion H. apply String.eqb_refl.
Qed.

Lemma key_eqb_refl (a : Key) : key_eqb a a = true.
Proof. now apply key_eqb_eq. Qed.

Lemma key_eqb_neq (a b : Key) : key_eqb a b = false <-> a <> b.
Proof.
  split.
  - intros H E. apply key_eqb_eq in E. congruence.
  - intros H. destruct (key_eqb a b) eqn:E; trivial.
    apply key_eqb_eq in E. contradiction.
Qed.

Lemma key_eqb_sym (a b : Key) : key_eqb a b = key_eqb b a.
Proof.
  destruct (key_eqb b a) eqn:E.
  - apply key_eqb_eq in E. subst. apply key_eqb_refl.
  - apply key_eqb_neq. apply key_eqb_neq in E. congruence.
Qed.

Lemma key_eq_dec (a b : Key) : {a = b} + {a <> b}.
Proof.
  destruct (key_eqb a b) eqn:E.
  - left. now apply key_eqb_eq.
  - right. now apply key_eqb_neq.
Qed.

Lemma dict_get_set_same (d : Dict) (k : Key) (v : Value) :
  dict_get (dict_set d k v) k = Some v.
Proof.
  induction d as [|[k' v'] r IH]; simpl.
  - now rewrite key_eqb_refl.
  - destruct (key_eqb k' k) eqn:E; simpl; rewrite E; trivial.
Qed.

Lemma dict_get_set_other (d : Dict) (k k' : Key) (v : Value) :
  k <> k' -> dict_get (dict_set d k v) k' = dict_get d k'.
Proof.
  intros Hne. induction d as [|[k0 v0] r IH]; simpl.
  - apply key_eqb_neq in Hne. now rewrite Hne.
  - destruct (key_eqb k0 k) eqn:E; simpl.
    + apply key_eqb_eq in E. subst k0.
      apply key_eqb_neq in Hne. now rewrite Hne.
    + now rewrite IH.
Qed.

Lemma dict_get_In (d : Dict) (k : Key) (v : Value) :
  dict_get d k = Some v -> In (k, v) d.
Proof.
  induction d as [|[k' v'] r IH]; simpl; try discriminate.
  destruct (key_eqb k' k) eqn:E.
  - apply key_eqb_eq in E. intros [= ->]. left. congruence.
  - auto.
Qed.

Lemma In_dict_keys_get (d : Dict) (k : Key) :
  In k (dict_keys d) -> exists v, dict_get d k = Some v.
Proof.
  induction d as [|[k' v'] r IH]; simpl; [tauto|].
  intros [E | H].
  - subst. rewrite key_eqb_refl. eauto.
  - destruct (key_eqb k' k); eauto.
Qed.

Lemma dict_get_None_keys (d : Dict) (k : Key) :
  dict_get d k = None -> ~ In k (dict_keys d).
Proof.
  intros H Hin. apply In_dict_keys_get in Hin as [v Hv]. congruence.
Qed.

Lemma depth_dict_item (d : Dict) (k : Key) (v : Value) :
  In (k, v) d -> depth v < depth (VDict d).
Proof.
  simpl. induction d as [|[k' v'] r IH]; simpl; [tauto|].
  intros [E | H].
  - inversion E. subst. lia.
  - specialize (IH H). lia.
Qed.

Lemma depth_list_item (l : list Value) (v : Value) :
  In v l -> depth v < depth (VList l).
Proof.
  simpl. induction l as [|x r IH]; simpl; [tauto|].
  intros [E | H].
  - subst. lia.
  - specialize (IH H). lia.
Qed.

Lemma py_in_deep_member (x : Value) (l : list Value) :
  py_in x l = true <-> deep_member x l.
Proof.
  unfold py_in, deep_member. rewrite existsb_exists. tauto.
Qed.

Lemma filter_Selects (P : Value -> Prop) (f : Value -> bool) (l : list Value) :
  (forall x, f x = true <-> P x) -> Selects P l (filter f l).
Proof.
  intros Hf. induction l as [|x r IH]; simpl.
  - constructor.
  - destruct (f x) eqn:E.
    + apply Selects_keep; trivial. now apply Hf.
    + apply Selects_drop; trivial. intros HP. apply Hf in HP. congruence.
Qed.

Lemma Selects_In (P : Value -> Prop) (l l' : list Value) :
  Selects P l l' -> forall x, In x l' <-> In x l /\ P x.
Proof.
  induction 1 as [|x l l' HP _ IH|x l l' HP _ IH]; intros y; simpl.
  - tauto.
  - rewrite IH. split.
    + intros [-> | [H1 H2]]; auto.
    + intros [[-> | H1] H2]; auto.
  - rewrite IH. split.
    + intros [H1 H2]; auto.
    + intros [[-> | H1] H2]; [contradiction | auto].
Qed.

(* ------------------------------------------------------------------ *)
(** ** The Identic short-circuit *)

(** C8. With [merge_type] [identic] the dispatcher, the mapping merger
    and the sequence merger return a copy equal to [expected] whatever
    [current] is, so merging a value with itself gives that value. *)
Theorem identic_returns_expected :
  forall (fuel : nat) (list_diff_type : string) (current expected : Value),
    let self := mkDataMergeUtils "identic" list_diff_type in
    get_new_merged_data (S fuel) self current expected = Ret expected
    /\ get_new_merged_dict fuel self current expected = Ret expected
    /\ get_new_merged_list fuel self current expected = Ret expected
    /\ get_new_merged_data (S fuel) self expected expected = Ret expected
    /\ (forall func : Method,
          _check_identic func self current expected = Ret (deepcopy expected)).
Proof.
  intros fuel ldt current expected self.
  assert (H : forall func c,
            _check_identic func self c expected = Ret expected).
  { intros func c. unfold _check_identic. simpl. now rewrite deepcopy_id. }
  repeat split.
  - simpl. apply H.
  - apply H.
  - apply H.
  - simpl. apply H.
Qed.

(* ------------------------------------------------------------------ *)
(** ** The dispatcher on operands of different kinds *)

Lemma dispatcher_passes_two_lists (current expected : Value) :
  isinstance_type_of current expected = true ->
  is_list current = true ->
  exists c e, current = VList c /\ expected = VList e.
Proof.
  destruct current, expected; simpl; try discriminate. eauto.
Qed.

Lemma kind_mismatch_isinstance (current expected : Value) :
  kind_of current <> kind_of expected ->
  isinstance_type_of current expected = false.
Proof.
  destruct current, expected; simpl; intros H; trivial; now elim H.
Qed.

(** C7. When the two operands are of different kinds (null, scalar,
    sequence, mapping) the dispatcher returns [expected] under [present]
    and [current] under [absent], at every level of the recursion, and
    raises nothing; the mapping merger stores that very result for a key
    whose two values are a mapping and a sequence. *)
Theorem type_mismatch_policy :
  forall (fuel : nat) (list_diff_type : string) (current expected : Value),
    kind_of current <> kind_of expected ->
    get_new_merged_data (S fuel) (mkDataMergeUtils "present" list_diff_type)
      current expected = Ret expected
    /\ get_new_merged_data (S fuel) (mkDataMergeUtils "absent" list_diff_type)
         current expected = Ret current
    /\ (forall key : Key,
          is_dict_or_list current = true ->
          is_dict_or_list expected = true ->
          get_new_merged_dict (S fuel)
            (mkDataMergeUtils "present" list_diff_type)
            (VDict [(key, current)]) (VDict [(key, expected)])
          = Ret (VDict [(key, expected)])
          /\ get_new_merged_dict (S fuel)
               (mkDataMergeUtils "absent" list_diff_type)
               (VDict [(key, current)]) (VDict [(key, expected)])
             = Ret (VDict [(key, current)])).
Proof.
  intros fuel ldt current expected Hk.
  pose proof (kind_mismatch_isinstance _ _ Hk) as Hi.
  assert (Hp : get_new_merged_data (S fuel) (mkDataMergeUtils "present" ldt)
                 current expected = Ret expected).
  { simpl. unfold get_new_merged_data_of, _check_identic. simpl.
    rewrite Hi. simpl. now rewrite deepcopy_id. }
  assert (Ha : get_new_merged_data (S fuel) (mkDataMergeUtils "absent" ldt)
                 current expected = Ret current).
  { simpl. unfold get_new_merged_data_of, _check_identic. simpl.
    rewrite Hi. simpl. now rewrite deepcopy_id. }
  split; [exact Hp|]. split; [exact Ha|].
  intros key Hc He.
  unfold get_new_merged_dict, get_new_merged_dict_of, _check_identic.
  rewrite !deepcopy_id.
  destruct current, expected; simpl in Hc, He; try discriminate;
    try (now elim Hk).
  all: unfold dict_keys, map, for_each, fst, merged_dict_step.
  all: cbn -[get_new_merged_data key_eqb]; rewrite !key_eqb_refl.
  all: cbn -[get_new_merged_data key_eqb]; rewrite ?Hp, ?Ha.
  all: cbn -[get_new_merged_data key_eqb]; rewrite ?key_eqb_refl.
  all: split; reflexivity.
Qed.

Lemma type_mismatch_policy_witness :
  kind_of (VDict []) <> kind_of (VList [VInt 1])
  /\ get_new_merged_data 1 (mkDataMergeUtils "present" "value")
       (VDict []) (VList [VInt 1]) = Ret (VList [VInt 1]).
Proof.
  split.
  - discriminate.
  - apply (type_mismatch_policy 0 "value" (VDict []) (VList [VInt 1])).
    discriminate.
Defined.

(* ------------------------------------------------------------------ *)
(** ** The dispatcher on two scalars of one kind *)

(** Two numbers need not be of one class: an [int] merged with a [float]
    fails the class test of the dispatcher, which returns the [float]
    under [present]. *)
Lemma int_float_pair_returns :
  same_scalar_kind (VInt 1) (VFloat (FFinite false 1 1)) = true
  /\ get_new_merged_data 1 (mkDataMergeUtils "present" "value")
       (VInt 1) (VFloat (FFinite false 1 1))
     = Ret (VFloat (FFinite false 1 1)).
Proof. split; reflexivity. Qed.

Lemma same_scalar_class_instance (current expected : Value) :
  same_scalar_class current expected = true ->
  kind_of current = KindScalar /\ kind_of expected = KindScalar
  /\ isinstance_type_of current expected = true.
Proof.
  destruct current, expected; simpl; intros H; try discriminate;
    repeat split.
Qed.

(** C10. Two scalars of which [current] is an instance of the class of
    [expected] (two booleans, two ints, two floats, two strings, or a
    bool with an int) pass the class test of the dispatcher and are handed
    to the mapping merger, whose call of [expected.keys()] raises: under
    [present] and under [absent] the call fails and no scalar is
    returned. *)
Theorem scalar_instance_pairs_fail :
  forall (fuel : nat) (list_diff_type : string) (current expected : Value),
    kind_of current = KindScalar ->
    kind_of expected = KindScalar ->
    isinstance_type_of current expected = true ->
    get_new_merged_data (S fuel) (mkDataMergeUtils "present" list_diff_type)
      current expected = Raise AttributeError
    /\ get_new_merged_data (S fuel) (mkDataMergeUtils "absent" list_diff_type)
         current expected = Raise AttributeError.
Proof.
  intros fuel ldt current expected Hc He Hi.
  destruct current, expected; simpl in Hc, He, Hi; try discriminate;
    split; reflexivity.
Qed.

Lemma scalar_instance_pairs_fail_witness :
  kind_of (VFloat (FFinite false 1 1)) = KindScalar
  /\ kind_of (VFloat (FZero false)) = KindScalar
  /\ isinstance_type_of (VFloat (FFinite false 1 1)) (VFloat (FZero false))
     = true
  /\ get_new_merged_data 1 (mkDataMergeUtils "absent" "value")
       (VFloat (FFinite false 1 1)) (VFloat (FZero false))
     = Raise AttributeError.
Proof.
  split; [reflexivity|]. split; [reflexivity|]. split; [reflexivity|].
  apply (scalar_instance_pairs_fail 0 "value"
           (VFloat (FFinite false 1 1)) (VFloat (FZero false)));
    reflexivity.
Defined.

(* ------------------------------------------------------------------ *)
(** ** Validation of the configuration *)

Lemma set_merge_type_rejects (self : DataMergeUtils) (value : string) :
  str_in value ["identic"; "present"; "absent"] = false ->
  set_merge_type self value = Raise ValueError.
Proof. unfold set_merge_type. now intros ->. Qed.

Lemma set_list_diff_type_rejects (self : DataMergeUtils) (value : string) :
  str_in value ["value"; "index"] = false ->
  set_list_diff_type self value = Raise ValueError.
Proof. unfold set_list_diff_type. now intros ->. Qed.

Lemma init_rejects_merge_type (merge_type list_diff_type : string) :
  str_in merge_type ["identic"; "present"; "absent"] = false ->
  __init__ merge_type list_diff_type = Raise ValueError.
Proof. unfold __init__, set_merge_type. now intros ->. Qed.

(** C5. [__init__] stores any [list_diff_type] without the test of the
    property setter: the constructor accepts a value outside the
    enumeration, and the sequence merger raises [TypeError] when the merge
    reaches it, whereas the setter rejects that value with [ValueError]. *)
Theorem list_diff_type_unchecked_at_construction :
  (forall list_diff_type : string,
     __init__ "present" list_diff_type
     = Ret (mkDataMergeUtils "present" list_diff_type))
  /\ str_in "bogus" ["value"; "index"] = false
  /\ get_new_merged_data 1 (mkDataMergeUtils "present" "bogus")
       (VList []) (VList []) = Raise TypeError
  /\ set_list_diff_type (mkDataMergeUtils "present" "value") "bogus"
     = Raise ValueError.
Proof. repeat split. Qed.

(* ------------------------------------------------------------------ *)
(** ** Absent mode on a key that [merged] does not hold *)

(** The [else] branch under [absent], case by case: a key held with an
    equal value is removed, a key held with another value stays, and a key
    that is not held is looked up as [None]. *)
Lemma merged_dict_else_absent list_diff_type expected m key e :
  dict_get expected key = Some e ->
  merged_dict_else (mkDataMergeUtils "absent" list_diff_type) expected
    (VDict m) key
  = match dict_get m key with
    | Some g => if py_eq g e then Ret (VDict (dict_del m key))
                else Ret (VDict m)
    | None => if py_eq VNone e then Raise KeyError else Ret (VDict m)
    end.
Proof.
  intros He. unfold merged_dict_else. simpl. rewrite He.
  unfold dict_mem. destruct (dict_get m key) as [g|]; simpl; trivial.
Qed.

(** C2. Under [absent], for a key that [current] does not hold and whose
    expected value is [None], [merged.get(key)] is [None], the comparison
    succeeds and [merged.pop(key)] raises [KeyError]. *)
Theorem absent_missing_key_null_raises :
  forall (fuel : nat) (list_diff_type : string),
    get_new_merged_dict fuel (mkDataMergeUtils "absent" list_diff_type)
      (VDict []) (VDict [(KStr "a", VNone)]) = Raise KeyError.
Proof. reflexivity. Qed.

(** C6. A configuration accepted by the constructor and two well-formed
    operands on which the merge fails with [KeyError], an error outside
    the taxonomy: two mappings, and two sequences merged by index. *)
Theorem merge_raises_key_error :
  forall fuel : nat,
    __init__ "absent" "value" = Ret (mkDataMergeUtils "absent" "value")
    /\ get_new_merged_data (S fuel) (mkDataMergeUtils "absent" "value")
         (VDict []) (VDict [(KStr "a", VNone)]) = Raise KeyError
    /\ __init__ "absent" "index" = Ret (mkDataMergeUtils "absent" "index")
    /\ get_new_merged_data (S fuel) (mkDataMergeUtils "absent" "index")
         (VList []) (VList [VNone]) = Raise KeyError
    /\ in_taxonomy KeyError = false.
Proof. repeat split. Qed.

(* ------------------------------------------------------------------ *)
(** ** Sequences merged by value *)

(** C4. With [list_diff_type] [value], under [present] the result is
    [current] followed by the elements of [expected], in order and with
    their repetitions, that are deep-equal to no element of [current];
    under [absent] it is the elements of [current], in order, that are
    deep-equal to no element of [expected]. No budget of dispatcher
    activations is needed: the elements are compared, never merged. *)
Theorem value_diff_merge :
  forall (fuel : nat) (current expected : list Value),
    (exists added,
       get_new_merged_list fuel (mkDataMergeUtils "present" "value")
         (VList current) (VList expected) = Ret (VList (current ++ added))
       /\ Selects (fun x => ~ deep_member x current) expected added)
    /\ (exists kept,
          get_new_merged_list fuel (mkDataMergeUtils "absent" "value")
            (VList current) (VList expected) = Ret (VList kept)
          /\ Selects (fun x => ~ deep_member x expected) current kept)
    /\ get_new_merged_list fuel (mkDataMergeUtils "present" "value")
         (VList [VInt 1]) (VList [VInt 2; VInt 1; VInt 2])
       = Ret (VList [VInt 1; VInt 2; VInt 2]).
Proof.
  intros fuel current expected. split; [|split].
  - eexists. split; [reflexivity|].
    apply filter_Selects. intros x.
    rewrite negb_true_iff, <- not_true_iff_false.
    now rewrite py_in_deep_member.
  - eexists. split; [reflexivity|].
    apply filter_Selects. intros x.
    rewrite negb_true_iff, <- not_true_iff_false.
    now rewrite py_in_deep_member.
  - reflexivity.
Qed.

(* ------------------------------------------------------------------ *)
(** ** The activation budget *)

Lemma res_le_refl {A : Type} (r : Res A) : res_le r r.
Proof. now right. Qed.

Lemma bind_res_le {A B : Type} (m1 m2 : Res A) (f1 f2 : A -> Res B) :
  res_le m1 m2 -> (forall a, res_le (f1 a) (f2 a)) ->
  res_le (bind m1 f1) (bind m2 f2).
Proof.
  intros [-> | ->] Hf.
  - now left.
  - destruct m2; simpl; auto using res_le_refl.
Qed.

Lemma for_each_res_le {St K : Type} (ks : list K)
  (body1 body2 : St -> K -> Res St) :
  (forall s k, res_le (body1 s k) (body2 s k)) ->
  forall s, res_le (for_each ks s body1) (for_each ks s body2).
Proof.
  intros Hb. induction ks as [|k r IH]; intros s; simpl.
  - apply res_le_refl.
  - apply bind_res_le; auto.
Qed.

Lemma bind_not_out {A B : Type} (m : Res A) (f : A -> Res B) :
  m <> OutOfFuel -> (forall a, m = Ret a -> f a <> OutOfFuel) ->
  bind m f <> OutOfFuel.
Proof.
  destruct m; simpl; intros Hm Hf; auto. discriminate.
Qed.

Lemma for_each_not_out {St K : Type} (ks : list K) (body : St -> K -> Res St) :
  (forall s k, In k ks -> body s k <> OutOfFuel) ->
  forall s, for_each ks s body <> OutOfFuel.
Proof.
  induction ks as [|k r IH]; intros Hb s; simpl.
  - discriminate.
  - apply bind_not_out.
    + apply Hb. now left.
    + intros s' _. apply IH. intros s0 k0 H0. apply Hb. now right.
Qed.

Lemma py_get_not_out (obj : Value) (key : Key) : py_get obj key <> OutOfFuel.
Proof.
  destruct obj; simpl; try discriminate.
  destruct (dict_get d key); discriminate.
Qed.

Lemma py_getitem_not_out (obj : Value) (key : Key) :
  py_getitem obj key <> OutOfFuel.
Proof.
  destruct obj; simpl; try discriminate.
  - destruct key; try discriminate.
    destruct (list_index _ _); discriminate.
  - destruct key; try discriminate.
    destruct (list_index _ _); discriminate.
  - destruct (dict_get d key); discriminate.
Qed.

Lemma py_setitem_not_out (obj : Value) (key : Key) (v : Value) :
  py_setitem obj key v <> OutOfFuel.
Proof.
  destruct obj; simpl; try discriminate.
  destruct key; try discriminate.
  destruct (list_index _ _); discriminate.
Qed.

Lemma py_pop_not_out (obj : Value) (key : Key) : py_pop obj key <> OutOfFuel.
Proof.
  destruct obj; simpl; try discriminate.
  - destruct key; try discriminate.
    destruct (list_index _ _); discriminate.
  - destruct (dict_mem d key); discriminate.
Qed.

Lemma merged_dict_else_not_out self expected merged key :
  merged_dict_else self expected merged key <> OutOfFuel.
Proof.
  unfold merged_dict_else.
  destruct (String.eqb _ "present").
  - apply bind_not_out; [apply py_getitem_not_out|]. intros e _.
    destruct e; try apply py_setitem_not_out. discriminate.
  - destruct (String.eqb _ "absent"); [|discriminate].
    apply bind_not_out; [apply py_get_not_out|]. intros g _.
    apply bind_not_out; [apply py_getitem_not_out|]. intros e _.
    destruct (py_eq g e); [apply py_pop_not_out | discriminate].
Qed.

Lemma convert_list_to_dict_In (l : list Value) (k : Key) (v : Value) :
  In (k, v) (_convert_list_to_dict l) -> In v l.
Proof. unfold _convert_list_to_dict. apply in_combine_r. Qed.

Section Budget.
Variables rec1 rec2 : Method.
Hypothesis Hrec : forall self c e, res_le (rec1 self c e) (rec2 self c e).

Lemma merged_dict_step_res_le self current expected merged key :
  res_le (merged_dict_step rec1 self current expected merged key)
         (merged_dict_step rec2 self current expected merged key).
Proof.
  unfold merged_dict_step.
  destruct (is_dict_or_list _); [|apply res_le_refl].
  apply bind_res_le; [apply res_le_refl|]. intros cg.
  destruct (is_dict_or_list cg); [|apply res_le_refl].
  apply bind_res_le; [apply res_le_refl|]. intros mk.
  apply bind_res_le; [apply res_le_refl|]. intros ek.
  apply bind_res_le; [apply Hrec|]. intros new. apply res_le_refl.
Qed.

Lemma get_new_merged_dict_of_res_le self current expected :
  res_le (get_new_merged_dict_of rec1 self current expected)
         (get_new_merged_dict_of rec2 self current expected).
Proof.
  unfold get_new_merged_dict_of, _check_identic.
  destruct (String.eqb _ _); [apply res_le_refl|].
  destruct expected; try apply res_le_refl.
  apply for_each_res_le. intros s k. apply merged_dict_step_res_le.
Qed.

Lemma get_new_merged_list_of_res_le self current expected :
  res_le (get_new_merged_list_of rec1 self current expected)
         (get_new_merged_list_of rec2 self current expected).
Proof.
  unfold get_new_merged_list_of, _check_identic.
  destruct (String.eqb _ _); [apply res_le_refl|].
  destruct current; try apply res_le_refl.
  destruct expected; try apply res_le_refl.
  destruct (String.eqb _ _); [apply res_le_refl|].
  destruct (String.eqb _ _); [|apply res_le_refl].
  unfold _get_new_merged_list_with_index_diff_of.
  apply bind_res_le; [apply get_new_merged_dict_of_res_le|].
  intros a. apply res_le_refl.
Qed.

Lemma get_new_merged_data_of_res_le self current expected :
  res_le (get_new_merged_data_of rec1 self current expected)
         (get_new_merged_data_of rec2 self current expected).
Proof.
  unfold get_new_merged_data_of, _check_identic.
  destruct (String.eqb _ _); [apply res_le_refl|].
  destruct (negb _); [apply res_le_refl|].
  destruct (is_list current).
  - apply get_new_merged_list_of_res_le.
  - apply get_new_merged_dict_of_res_le.
Qed.
End Budget.

Section Termination.
Variable rec : Method.
Variable n : nat.
Hypothesis Hrec : forall self c e, depth e < n -> rec self c e <> OutOfFuel.

Lemma merged_dict_step_not_out self current expected merged key :
  (forall k v, In (k, v) expected -> depth v < n) ->
  merged_dict_step rec self current expected merged key <> OutOfFuel.
Proof.
  intros Hd. unfold merged_dict_step.
  destruct (is_dict_or_list _); [|apply merged_dict_else_not_out].
  apply bind_not_out; [apply py_get_not_out|]. intros cg _.
  destruct (is_dict_or_list cg); [|apply merged_dict_else_not_out].
  apply bind_not_out; [apply py_getitem_not_out|]. intros mk _.
  apply bind_not_out; [apply py_getitem_not_out|]. intros ek Hek.
  apply bind_not_out; [|intros; apply py_setitem_not_out].
  apply Hrec. simpl in Hek.
  destruct (dict_get expected key) as [e|] eqn:E; [|discriminate].
  inversion Hek. subst. apply (Hd key). now apply dict_get_In.
Qed.

Lemma get_new_merged_dict_of_not_out self current expected :
  depth expected <= n ->
  get_new_merged_dict_of rec self current expected <> OutOfFuel.
Proof.
  intros Hd. unfold get_new_merged_dict_of, _check_identic.
  destruct (String.eqb _ _); [discriminate|].
  destruct expected; try discriminate.
  apply for_each_not_out. intros s k _.
  apply merged_dict_step_not_out. intros k' v Hin.
  apply depth_dict_item in Hin. lia.
Qed.

Lemma get_new_merged_list_of_not_out self current expected :
  depth expected <= n ->
  get_new_merged_list_of rec self current expected <> OutOfFuel.
Proof.
  intros Hd. unfold get_new_merged_list_of, _check_identic.
  destruct (String.eqb _ _); [discriminate|].
  destruct current; try discriminate.
  destruct expected; try discriminate.
  destruct (String.eqb _ _).
  { unfold _get_new_merged_list_with_value_diff.
    destruct (String.eqb _ _); [discriminate|].
    destruct (String.eqb _ _); discriminate. }
  destruct (String.eqb _ _); [|discriminate].
  unfold _get_new_merged_list_with_index_diff_of.
  apply bind_not_out.
  - unfold get_new_merged_dict_of, _check_identic.
    destruct (String.eqb _ _); [discriminate|].
    apply for_each_not_out. intros s k _.
    apply merged_dict_step_not_out. intros k' v Hin.
    apply convert_list_to_dict_In, depth_list_item in Hin. lia.
  - intros a _. destruct a; discriminate.
Qed.

Lemma get_new_merged_data_of_not_out self current expected :
  depth expected <= n ->
  get_new_merged_data_of rec self current expected <> OutOfFuel.
Proof.
  intros Hd. unfold get_new_merged_data_of, _check_identic.
  destruct (String.eqb _ _); [discriminate|].
  destruct (negb _).
  { destruct (String.eqb _ _); [discriminate|].
    destruct (String.eqb _ _); discriminate. }
  destruct (is_list current).
  - now apply get_new_merged_list_of_not_out.
  - now apply get_new_merged_dict_of_not_out.
Qed.
End Termination.

Lemma get_new_merged_data_not_out (fuel : nat) :
  forall self current expected,
    depth expected < fuel ->
    get_new_merged_data fuel self current expected <> OutOfFuel.
Proof.
  induction fuel as [|f IH]; intros self current expected Hd; [lia|].
  simpl. apply get_new_merged_data_of_not_out with (n := f); [exact IH | lia].
Qed.

Lemma get_new_merged_data_step (fuel : nat) :
  forall self current expected,
    res_le (get_new_merged_data fuel self current expected)
           (get_new_merged_data (S fuel) self current expected).
Proof.
  induction fuel as [|f IH]; intros self current expected.
  - now left.
  - change (res_le
              (get_new_merged_data_of (get_new_merged_data f)
                 self current expected)
              (get_new_merged_data_of (get_new_merged_data (S f))
                 self current expected)).
    apply get_new_merged_data_of_res_le. exact IH.
Qed.

Lemma get_new_merged_data_mono (fuel extra : nat) self current expected :
  get_new_merged_data fuel self current expected <> OutOfFuel ->
  get_new_merged_data (fuel + extra) self current expected
  = get_new_merged_data fuel self current expected.
Proof.
  intros Hn. induction extra as [|m IH].
  - now rewrite Nat.add_0_r.
  - rewrite Nat.add_succ_r.
    destruct (get_new_merged_data_step (fuel + m) self current expected)
      as [Ho | He].
    + rewrite IH in Ho. contradiction.
    + rewrite <- He. exact IH.
Qed.

(** C9. On finite trees the merge terminates for every configuration:
    a budget of nested dispatcher activations above the nesting depth of
    [expected] is never used up, and the outcome is the one reached with
    [depth expected + 1] activations. *)
Theorem merge_terminates_within_depth :
  forall (fuel : nat) (self : DataMergeUtils) (current expected : Value),
    depth expected < fuel ->
    get_new_merged_data fuel self current expected <> OutOfFuel
    /\ get_new_merged_data fuel self current expected
       = get_new_merged_data (S (depth expected)) self current expected.
Proof.
  intros fuel self current expected Hd. split.
  - now apply get_new_merged_data_not_out.
  - replace fuel with (S (depth expected) + (fuel - S (depth expected))) by lia.
    apply get_new_merged_data_mono.
    apply get_new_merged_data_not_out. lia.
Qed.

Lemma merge_terminates_within_depth_witness :
  depth (VDict [(KStr "A", VList [VInt 1])]) < 3
  /\ get_new_merged_data 3 (mkDataMergeUtils "present" "index")
       (VDict [(KStr "A", VList [VInt 2])])
       (VDict [(KStr "A", VList [VInt 1])]) <> OutOfFuel.
Proof.
  split.
  - simpl. lia.
  - apply (merge_terminates_within_depth 3
             (mkDataMergeUtils "present" "index")
             (VDict [(KStr "A", VList [VInt 2])])
             (VDict [(KStr "A", VList [VInt 1])])).
    simpl. lia.
Defined.

(* ------------------------------------------------------------------ *)
(** ** Well-formed values *)

Lemma wf_value_dict (d : Dict) :
  wf_value (VDict d) ->
  wf_dict d /\ forall k v, In (k, v) d -> wf_value v.
Proof.
  simpl. intros [Hnd Hit]. split; [exact Hnd|].
  clear Hnd. induction d as [|[k' v'] r IH]; simpl; [tauto|].
  destruct Hit as [Hv Hr]. intros k v [E | Hin].
  - inversion E. now subst.
  - eauto.
Qed.

Lemma wf_value_list (l : list Value) :
  wf_value (VList l) -> forall v, In v l -> wf_value v.
Proof.
  simpl. induction l as [|x r IH]; simpl; [tauto|].
  intros [Hx Hr] v [E | Hin]; [now subst | eauto].
Qed.

Lemma convert_list_to_dict_keys (l : list Value) :
  dict_keys (_convert_list_to_dict l)
  = map (fun n => KInt (Z.of_nat n)) (seq 0 (List.length l)).
Proof.
  unfold dict_keys, _convert_list_to_dict.
  generalize (length_seq (List.length l) 0).
  generalize (seq 0 (List.length l)) as ns.
  induction l as [|x r IH]; intros [|m ns] Hlen; simpl in *;
    try discriminate Hlen; trivial.
  f_equal. apply IH. congruence.
Qed.

Lemma convert_list_to_dict_wf (l : list Value) :
  wf_dict (_convert_list_to_dict l).
Proof.
  unfold wf_dict. rewrite convert_list_to_dict_keys.
  apply Injective_map_NoDup; [|apply seq_NoDup].
  intros a b H. inversion H. lia.
Qed.

(* ------------------------------------------------------------------ *)
(** ** The mapping merger under [present] *)

Lemma mixed_composites_mismatch (c e : Value) :
  is_dict_or_list c = true -> is_dict_or_list e = true ->
  same_composite_kind (Some c) e = false ->
  isinstance_type_of c e = false.
Proof. destruct c, e; simpl; intros; trivial; discriminate. Qed.

Section PresentMapping.
Variable rec : Method.
Variable n : nat.
Variable list_diff_type : string.

Hypothesis Hrec_total : forall c e,
  is_dict_or_list c = true -> is_dict_or_list e = true ->
  wf_value e -> depth e < n ->
  exists r, rec (mkDataMergeUtils "present" list_diff_type) c e = Ret r.
Hypothesis Hrec_mismatch : forall c e,
  isinstance_type_of c e = false -> depth e < n ->
  rec (mkDataMergeUtils "present" list_diff_type) c e = Ret e.

Variables current expected : Dict.

Lemma merged_dict_step_present (m : Dict) (key : Key) (e : Value) :
  dict_get expected key = Some e ->
  wf_value e -> depth e < n ->
  dict_get m key = dict_get current key ->
  exists m1,
    merged_dict_step rec (mkDataMergeUtils "present" list_diff_type)
      (VDict current) expected (VDict m) key
    = Ret (VDict m1)
    /\ (forall k, k <> key -> dict_get m1 k = dict_get m k)
    /\ (same_composite_kind (dict_get current key) e = false ->
        dict_get m1 key = present_at current key e).
Proof.
  intros He Hwf Hd Hm. unfold merged_dict_step. rewrite He.
  assert (Ho : exists m1,
    merged_dict_else (mkDataMergeUtils "present" list_diff_type) expected
      (VDict m) key = Ret (VDict m1)
    /\ (forall k, k <> key -> dict_get m1 k = dict_get m k)
    /\ dict_get m1 key = present_at current key e).
  { unfold merged_dict_else. simpl. rewrite He. simpl.
    destruct e; simpl.
    1: (exists m; repeat split; trivial).
    all: eexists; split; [reflexivity|]; split;
      [intros k Hk; apply dict_get_set_other; congruence
      |apply dict_get_set_same]. }
  destruct Ho as (mo & Ho1 & Ho2 & Ho3).
  destruct (is_dict_or_list e) eqn:Ee;
    [|exists mo; repeat split; auto].
  simpl py_get.
  destruct (dict_get current key) as [c|] eqn:Ec; simpl bind;
    [|exists mo; repeat split; auto].
  destruct (is_dict_or_list c) eqn:Ecc;
    [|exists mo; repeat split; auto].
  simpl. rewrite Hm, He. simpl.
  destruct (Hrec_total c e Ecc Ee Hwf Hd) as [r Hr]. rewrite Hr. simpl.
  eexists. split; [reflexivity|]. split.
  - intros k Hk. apply dict_get_set_other. congruence.
  - intros Hs. rewrite dict_get_set_same.
    pose proof (mixed_composites_mismatch c e Ecc Ee Hs) as Hi.
    rewrite (Hrec_mismatch c e Hi Hd) in Hr. inversion Hr. subst r.
    destruct e; simpl in Ee; try discriminate; reflexivity.
Qed.

Lemma merged_dict_loop_present (ks : list Key) :
  forall m,
    NoDup ks ->
    (forall k, In k ks -> dict_get m k = dict_get current k) ->
    (forall k, In k ks ->
       exists e, dict_get expected k = Some e /\ wf_value e /\ depth e < n) ->
    exists m',
      for_each ks (VDict m)
        (merged_dict_step rec (mkDataMergeUtils "present" list_diff_type)
           (VDict current) expected)
      = Ret (VDict m')
      /\ (forall k, ~ In k ks -> dict_get m' k = dict_get m k)
      /\ (forall k e, In k ks -> dict_get expected k = Some e ->
          same_composite_kind (dict_get current k) e = false ->
          dict_get m' k = present_at current k e).
Proof.
  induction ks as [|key r IH]; intros m Hnd Hm He.
  - exists m. simpl. repeat split; trivial. intros k e [].
  - inversion Hnd as [|? ? Hnotin Hnd']. subst.
    destruct (He key (or_introl eq_refl)) as (e & Hek & Hwf & Hdep).
    destruct (merged_dict_step_present m key e Hek Hwf Hdep
                (Hm key (or_introl eq_refl))) as (m1 & Hs1 & Hs2 & Hs3).
    destruct (IH m1 Hnd') as (m' & Hl1 & Hl2 & Hl3).
    + intros k Hk. rewrite Hs2; [apply Hm; now right|].
      intros ->. contradiction.
    + intros k Hk. apply He. now right.
    + exists m'. simpl. rewrite Hs1. simpl. split; [exact Hl1|]. split.
      * intros k Hk. rewrite Hl2 by (intros H; apply Hk; now right).
        apply Hs2. intros ->. apply Hk. now left.
      * intros k e0 [-> | Hk] Hek0 Hsk.
        -- rewrite Hl2 by exact Hnotin.
           assert (e0 = e) by congruence. subst e0. now apply Hs3.
        -- now apply (Hl3 k e0).
Qed.

Lemma get_new_merged_dict_of_present :
  wf_dict expected ->
  (forall k v, In (k, v) expected -> wf_value v /\ depth v < n) ->
  exists merged,
    get_new_merged_dict_of rec (mkDataMergeUtils "present" list_diff_type)
      (VDict current) (VDict expected)
    = Ret (VDict merged)
    /\ (forall k e, dict_get expected k = Some e ->
        same_composite_kind (dict_get current k) e = false ->
        dict_get merged k = present_at current k e)
    /\ (forall k, dict_get expected k = None ->
        dict_get merged k = dict_get current k).
Proof.
  intros Hnd Hvals.
  unfold get_new_merged_dict_of, _check_identic. simpl String.eqb.
  cbv iota. rewrite deepcopy_id.
  destruct (merged_dict_loop_present (dict_keys expected) current Hnd)
    as (m' & H1 & H2 & H3).
  - trivial.
  - intros k Hk. apply In_dict_keys_get in Hk as [e He].
    exists e. split; [exact He|]. apply dict_get_In in He.
    now apply (Hvals k).
  - exists m'. split; [exact H1|]. split.
    + intros k e He Hs. apply (H3 k e); trivial.
      apply dict_get_In in He. apply (in_map fst) in He. exact He.
    + intros k Hk. apply H2. now apply dict_get_None_keys.
Qed.
End PresentMapping.

Lemma present_mismatch (fuel : nat) (list_diff_type : string) (c e : Value) :
  isinstance_type_of c e = false ->
  get_new_merged_data (S fuel) (mkDataMergeUtils "present" list_diff_type) c e
  = Ret e.
Proof.
  intros Hi. simpl. unfold get_new_merged_data_of, _check_identic. simpl.
  rewrite Hi. simpl. now rewrite deepcopy_id.
Qed.

Lemma present_composites_return (list_diff_type : string) :
  list_diff_type = "value" \/ list_diff_type = "index" ->
  forall (fuel : nat) (c e : Value),
    is_dict_or_list c = true -> is_dict_or_list e = true ->
    wf_value e -> depth e < fuel ->
    exists r,
      get_new_merged_data fuel (mkDataMergeUtils "present" list_diff_type) c e
      = Ret r.
Proof.
  intros Hldt. induction fuel as [|f IH]; intros c e Hc He Hwf Hd; [lia|].
  destruct (isinstance_type_of c e) eqn:Hi;
    [|exists e; now apply present_mismatch].
  assert (Hmis : forall c0 e0, isinstance_type_of c0 e0 = false ->
            depth e0 < f ->
            get_new_merged_data f (mkDataMergeUtils "present" list_diff_type)
              c0 e0 = Ret e0).
  { intros c0 e0 H0 Hf. destruct f as [|f']; [lia|].
    now apply present_mismatch. }
  simpl. unfold get_new_merged_data_of, _check_identic.
  simpl String.eqb. cbv iota. rewrite Hi. simpl negb. cbv iota.
  destruct c, e; simpl in Hc, He, Hi; try discriminate.
  - (* two lists *)
    simpl is_list. cbv iota.
    unfold get_new_merged_list_of, _check_identic.
    simpl String.eqb. cbv iota.
    destruct Hldt as [-> | ->]; simpl String.eqb; cbv iota.
    + eexists. reflexivity.
    + unfold _get_new_merged_list_with_index_diff_of.
      destruct (get_new_merged_dict_of_present (get_new_merged_data f) f
                  "index" IH Hmis
                  (_convert_list_to_dict l) (_convert_list_to_dict l0))
        as (merged & Hm & _).
      * apply convert_list_to_dict_wf.
      * intros k v Hin. apply convert_list_to_dict_In in Hin. split.
        -- now apply (wf_value_list l0).
        -- apply depth_list_item in Hin. lia.
      * rewrite Hm. simpl. eexists. reflexivity.
  - (* two dicts *)
    simpl is_list. cbv iota.
    apply wf_value_dict in Hwf as [Hnd Hvals].
    destruct (get_new_merged_dict_of_present (get_new_merged_data f) f
                list_diff_type IH Hmis d d0) as (merged & Hm & _).
    + exact Hnd.
    + intros k v Hin. split; [now apply (Hvals k)|].
      apply depth_dict_item in Hin. lia.
    + rewrite Hm. eexists. reflexivity.
Qed.

(** C1. Under [present], with a valid [list_diff_type] and a budget that
    covers the depth of [expected], the mapping merger returns a mapping.
    At a key of [expected] outside the same-composite-kind recursion case
    it holds the value of [current] (or nothing, when [current] has
    nothing) if the expected value is [None], and the expected value
    otherwise; at a key that [expected] does not hold it holds what
    [current] holds. *)
Theorem present_mapping_merge :
  forall (fuel : nat) (list_diff_type : string) (current expected : Dict),
    list_diff_type = "value" \/ list_diff_type = "index" ->
    wf_value (VDict expected) ->
    depth (VDict expected) <= fuel ->
    exists merged,
      get_new_merged_dict fuel (mkDataMergeUtils "present" list_diff_type)
        (VDict current) (VDict expected) = Ret (VDict merged)
      /\ (forall k e,
            dict_get expected k = Some e ->
            same_composite_kind (dict_get current k) e = false ->
            (e = VNone -> dict_get merged k = dict_get current k)
            /\ (e <> VNone -> dict_get merged k = Some e))
      /\ (forall k,
            dict_get expected k = None ->
            dict_get merged k = dict_get current k).
Proof.
  intros fuel ldt current expected Hldt Hwf Hd.
  apply wf_value_dict in Hwf as [Hnd Hvals].
  destruct (get_new_merged_dict_of_present (get_new_merged_data fuel) fuel ldt)
    with (current := current) (expected := expected)
    as (merged & Hm & Hk & Ho).
  - now apply present_composites_return.
  - intros c e Hi Hf. destruct fuel as [|f]; [lia|].
    now apply present_mismatch.
  - exact Hnd.
  - intros k v Hin. split; [now apply (Hvals k)|].
    apply depth_dict_item in Hin. lia.
  - exists merged. split; [exact Hm|]. split; [|exact Ho].
    intros k e He Hs. specialize (Hk k e He Hs). split.
    + intros ->. exact Hk.
    + intros Hne. rewrite Hk. destruct e; trivial. now elim Hne.
Qed.

Lemma present_mapping_merge_witness :
  ("value" = "value" \/ "value" = "index")
  /\ wf_value (VDict [(KStr "A", VNone); (KStr "B", VStr "x");
                      (KStr "C", VList [VInt 3])])
  /\ depth (VDict [(KStr "A", VNone); (KStr "B", VStr "x");
                   (KStr "C", VList [VInt 3])]) <= 2
  /\ exists merged,
       get_new_merged_dict 2 (mkDataMergeUtils "present" "value")
         (VDict [(KStr "A", VInt 1); (KStr "B", VInt 2); (KStr "C", VList [])])
         (VDict [(KStr "A", VNone); (KStr "B", VStr "x");
                 (KStr "C", VList [VInt 3])])
       = Ret (VDict merged)
       /\ dict_get merged (KStr "A") = Some (VInt 1)
       /\ dict_get merged (KStr "B") = Some (VStr "x").
Proof.
  assert (H1 : "value" = "value" \/ "value" = "index") by (left; reflexivity).
  assert (H2 : wf_value (VDict [(KStr "A", VNone); (KStr "B", VStr "x");
                                (KStr "C", VList [VInt 3])])).
  { simpl. repeat split; trivial.
    repeat constructor; simpl; intuition discriminate. }
  assert (H3 : depth (VDict [(KStr "A", VNone); (KStr "B", VStr "x");
                             (KStr "C", VList [VInt 3])]) <= 2)
    by (simpl; lia).
  split; [exact H1|]. split; [exact H2|]. split; [exact H3|].
  destruct (present_mapping_merge 2 "value"
              [(KStr "A", VInt 1); (KStr "B", VInt 2); (KStr "C", VList [])]
              [(KStr "A", VNone); (KStr "B", VStr "x");
               (KStr "C", VList [VInt 3])] H1 H2 H3)
    as (merged & Hm & Hk & _).
  exists merged. split; [exact Hm|]. split.
  - apply (Hk (KStr "A") VNone); reflexivity.
  - apply (Hk (KStr "B") (VStr "x"));
      [reflexivity | reflexivity | discriminate].
Defined.

(* ------------------------------------------------------------------ *)
(** ** Sequences merged by index *)

Lemma key_ltb_int (x y : Z) : key_ltb (KInt x) (KInt y) = true <-> (x < y)%Z.
Proof.
  unfold key_ltb. simpl.
  rewrite andb_true_iff, negb_true_iff, Z.leb_le, Z.eqb_neq. lia.
Qed.

Lemma key_ltb_leb (a b : Key) : key_ltb a b = true -> key_leb a b = true.
Proof. unfold key_ltb. rewrite andb_true_iff. tauto. Qed.

Lemma dict_mem_In (d : Dict) (k : Key) :
  dict_mem d k = true <-> In k (dict_keys d).
Proof.
  unfold dict_mem. split.
  - destruct (dict_get d k) eqn:E; [|discriminate]. intros _.
    apply dict_get_In in E. now apply (in_map fst) in E.
  - intros H. apply In_dict_keys_get in H as [v ->]. reflexivity.
Qed.

Lemma dict_keys_set_mem (d : Dict) (k : Key) (v : Value) :
  In k (dict_keys d) -> dict_keys (dict_set d k v) = dict_keys d.
Proof.
  induction d as [|[k' v'] r IH]; simpl; [tauto|].
  intros H. destruct (key_eqb k' k) eqn:E; simpl; trivial.
  f_equal. apply IH. destruct H as [H | H]; trivial.
  apply key_eqb_neq in E. contradiction.
Qed.

Lemma dict_keys_set_new (d : Dict) (k : Key) (v : Value) :
  ~ In k (dict_keys d) ->
  dict_keys (dict_set d k v) = (dict_keys d ++ [k])%list.
Proof.
  induction d as [|[k' v'] r IH]; simpl; trivial.
  intros H. destruct (key_eqb k' k) eqn:E; simpl.
  - apply key_eqb_eq in E. tauto.
  - f_equal. apply IH. tauto.
Qed.

Lemma dict_keys_del_incl (d : Dict) (k k' : Key) :
  In k' (dict_keys (dict_del d k)) -> In k' (dict_keys d).
Proof.
  induction d as [|[k0 v0] r IH]; simpl; trivial.
  destruct (key_eqb k0 k); simpl; tauto.
Qed.

Lemma dict_keys_del_other (d : Dict) (k k' : Key) :
  k' <> k -> In k' (dict_keys d) -> In k' (dict_keys (dict_del d k)).
Proof.
  intros Hne. induction d as [|[k0 v0] r IH]; simpl; trivial.
  destruct (key_eqb k0 k) eqn:E; simpl.
  - apply key_eqb_eq in E. subst. intros [H | H]; [congruence | trivial].
  - tauto.
Qed.

Lemma ascending_del (d : Dict) (k : Key) :
  ascending (dict_keys d) -> ascending (dict_keys (dict_del d k)).
Proof.
  unfold ascending. induction d as [|[k0 v0] r IH]; simpl; trivial.
  intros H. apply StronglySorted_inv in H as [Hr Hall].
  destruct (key_eqb k0 k); simpl; trivial.
  constructor; [auto|].
  rewrite Forall_forall in *. intros x Hx.
  apply Hall. now apply dict_keys_del_incl in Hx.
Qed.

Lemma ascending_snoc (ks : list Key) (x : Key) :
  ascending ks -> (forall k, In k ks -> key_ltb k x = true) ->
  ascending (ks ++ [x])%list.
Proof.
  unfold ascending. induction ks as [|k r IH]; simpl; intros H Hlt.
  - repeat constructor.
  - apply StronglySorted_inv in H as [Hr Hall]. constructor; [auto|].
    rewrite Forall_forall in *. intros y Hy.
    apply in_app_or in Hy as [Hy | [<- | []]]; auto.
Qed.

Lemma sort_by_key_ascending (d : Dict) :
  ascending (dict_keys d) -> sort_by_key d = d.
Proof.
  unfold ascending. induction d as [|[k v] r IH]; simpl; trivial.
  intros H. apply StronglySorted_inv in H as [Hr Hall].
  rewrite (IH Hr). destruct r as [|[k' v'] r']; simpl; trivial.
  inversion Hall as [|? ? Hk _]. subst. simpl in Hk.
  now rewrite (key_ltb_leb _ _ Hk).
Qed.

Lemma spec_positional_mapping_eq (l : list Value) :
  _convert_list_to_dict l = spec_positional_mapping 0 l.
Proof.
  unfold _convert_list_to_dict.
  change 0%Z with (Z.of_nat 0). generalize 0 as s.
  induction l as [|x r IH]; intros s; simpl; trivial.
  f_equal. rewrite IH. f_equal. lia.
Qed.

Lemma spec_positional_mapping_keys (l : list Value) :
  forall (s : Z) (k : Key),
    In k (dict_keys (spec_positional_mapping s l)) <->
    exists z, k = KInt z /\ (s <= z < s + Z.of_nat (List.length l))%Z.
Proof.
  induction l as [|x r IH]; intros s k; simpl.
  - split; [tauto | intros (z & _ & H); lia].
  - rewrite IH. split.
    + intros [<- | (z & -> & H)]; eexists; split; try reflexivity; lia.
    + intros (z & -> & H). destruct (Z.eq_dec z s) as [-> | Hne]; [now left|].
      right. exists z. split; trivial. lia.
Qed.

Lemma spec_positional_mapping_ascending (l : list Value) :
  forall s : Z, ascending (dict_keys (spec_positional_mapping s l)).
Proof.
  unfold ascending. induction l as [|x r IH]; intros s; simpl; constructor.
  - apply IH.
  - rewrite Forall_forall. intros k Hk.
    apply spec_positional_mapping_keys in Hk as (z & -> & H).
    apply key_ltb_int. lia.
Qed.

Lemma merged_dict_else_shape self expected m key r :
  merged_dict_else self expected (VDict m) key = Ret r ->
  r = VDict m
  \/ (exists v, r = VDict (dict_set m key v))
  \/ (In key (dict_keys m) /\ r = VDict (dict_del m key)).
Proof.
  unfold merged_dict_else.
  destruct (String.eqb _ "present").
  - destruct (py_getitem (VDict expected) key) as [e| |]; simpl;
      try discriminate.
    destruct e; simpl; intros [= <-]; eauto.
  - destruct (String.eqb _ "absent"); [|discriminate].
    unfold py_get, py_pop, dict_mem.
    destruct (dict_get m key) as [g|] eqn:Eg; cbn [bind].
    + destruct (py_getitem (VDict expected) key) as [e| |]; cbn [bind];
        try discriminate.
      destruct (py_eq g e); [|intros [= <-]; auto].
      intros [= <-]. right. right. split; trivial.
      apply dict_mem_In. unfold dict_mem. now rewrite Eg.
    + destruct (py_getitem (VDict expected) key) as [e| |]; cbn [bind];
        try discriminate.
      destruct (py_eq VNone e); [discriminate | intros [= <-]; auto].
Qed.

Lemma merged_dict_step_shape rec self current expected m key r :
  merged_dict_step rec self current expected (VDict m) key = Ret r ->
  r = VDict m
  \/ (exists v, r = VDict (dict_set m key v))
  \/ (In key (dict_keys m) /\ r = VDict (dict_del m key)).
Proof.
  unfold merged_dict_step.
  destruct (is_dict_or_list _); [|apply merged_dict_else_shape].
  destruct (py_get current key) as [cg| |]; simpl; try discriminate.
  destruct (is_dict_or_list cg); [|apply merged_dict_else_shape].
  destruct (dict_get m key) as [mk|]; simpl; try discriminate.
  destruct (dict_get expected key) as [ek|]; simpl; try discriminate.
  destruct (rec self mk ek) as [new| |]; simpl; try discriminate.
  intros [= <-]. eauto.
Qed.

Lemma positional_inv_step (n j : Z) (m : Dict) (r : Value) :
  positional_inv n j m ->
  r = VDict m
  \/ (exists v, r = VDict (dict_set m (KInt j) v))
  \/ (In (KInt j) (dict_keys m) /\ r = VDict (dict_del m (KInt j))) ->
  exists m1, r = VDict m1 /\ positional_inv n (j + 1) m1.
Proof.
  intros (Hasc & Hbound & Hkeep) [-> | [[v ->] | [Hin ->]]].
  - exists m. split; trivial. repeat split; trivial.
    + intros k Hk. destruct (Hbound k Hk) as (z & -> & Hz).
      exists z. split; trivial. lia.
    + intros z Hz. apply Hkeep. lia.
  - eexists. split; [reflexivity|].
    destruct (in_dec key_eq_dec (KInt j) (dict_keys m))
      as [Hin | Hout].
    + unfold positional_inv. rewrite (dict_keys_set_mem m (KInt j) v Hin).
      repeat split; trivial.
      * intros k Hk. destruct (Hbound k Hk) as (z & -> & Hz).
        exists z. split; trivial. lia.
      * intros z Hz. apply Hkeep. lia.
    + assert (Hj : (n <= j)%Z).
      { destruct (Z_lt_le_dec j n) as [Hlt | Hle]; trivial.
        elim Hout. apply Hkeep. lia. }
      unfold positional_inv. rewrite (dict_keys_set_new m (KInt j) v Hout).
      repeat split.
      * apply ascending_snoc; trivial. intros k Hk.
        destruct (Hbound k Hk) as (z & -> & Hz). apply key_ltb_int. lia.
      * intros k Hk. apply in_app_or in Hk as [Hk | [<- | []]].
        -- destruct (Hbound k Hk) as (z & -> & Hz).
           exists z. split; trivial. lia.
        -- exists j. split; trivial. lia.
      * intros z Hz. lia.
  - eexists. split; [reflexivity|]. repeat split.
    + now apply ascending_del.
    + intros k Hk. apply dict_keys_del_incl in Hk.
      destruct (Hbound k Hk) as (z & -> & Hz). exists z. split; trivial. lia.
    + intros z Hz. apply dict_keys_del_other.
      * intros E. inversion E. lia.
      * apply Hkeep. lia.
Qed.

Lemma positional_inv_init (l : list Value) :
  positional_inv (Z.of_nat (List.length l)) 0 (spec_positional_mapping 0 l).
Proof.
  split; [|split].
  - apply spec_positional_mapping_ascending.
  - intros k Hk. apply spec_positional_mapping_keys in Hk as (z & -> & Hz).
    exists z. split; trivial. lia.
  - intros z Hz. apply spec_positional_mapping_keys.
    exists z. split; trivial; lia.
Qed.

Lemma positional_loop rec self current expected (l : list Value) :
  forall (n j : Z) (m : Dict) (r : Value),
    positional_inv n j m ->
    for_each (dict_keys (spec_positional_mapping j l)) (VDict m)
      (merged_dict_step rec self current expected) = Ret r ->
    exists m', r = VDict m' /\ ascending (dict_keys m').
Proof.
  induction l as [|x l' IH]; intros n j m r Hinv Hrun; simpl in Hrun.
  - inversion Hrun. subst. exists m. split; trivial. apply Hinv.
  - destruct (merged_dict_step rec self current expected (VDict m) (KInt j))
      as [s1| |] eqn:E; simpl in Hrun; try discriminate.
    apply merged_dict_step_shape in E.
    apply (positional_inv_step n j m s1 Hinv) in E as (m1 & -> & Hinv1).
    now apply (IH n (j + 1)%Z m1 r).
Qed.

Lemma index_diff_refines (fuel : nat) (self : DataMergeUtils)
  (current expected : list Value) :
  _get_new_merged_list_with_index_diff fuel self current expected
  = spec_merge_by_index fuel self current expected.
Proof.
  unfold _get_new_merged_list_with_index_diff,
    _get_new_merged_list_with_index_diff_of, spec_merge_by_index.
  rewrite !spec_positional_mapping_eq. fold (get_new_merged_dict fuel).
  destruct (get_new_merged_dict fuel self
              (VDict (spec_positional_mapping 0 current))
              (VDict (spec_positional_mapping 0 expected)))
    as [r| |] eqn:E; simpl; trivial.
  assert (H : exists m', r = VDict m' /\ ascending (dict_keys m')).
  { unfold get_new_merged_dict, get_new_merged_dict_of, _check_identic in E.
    rewrite !deepcopy_id in E.
    destruct (String.eqb (_merge_type self) "identic").
    - inversion E. subst. eexists. split; [reflexivity|].
      apply spec_positional_mapping_ascending.
    - eapply positional_loop; [apply positional_inv_init | exact E]. }
  destruct H as (m' & -> & Hasc). simpl.
  unfold spec_values_by_ascending_key, dict_values.
  now rewrite sort_by_key_ascending.
Qed.

(** C3. With [list_diff_type] [index], under [present] and under
    [absent], the sequence merger gives the outcome of the three-step
    transform: the two sequences as mappings keyed by position 0, 1, 2, ...,
    the mapping merger under the same [merge_type], and the values of its
    result in ascending key order. [4,5,6] merged with [None,7,None] under
    [present] is [4,7,6]; [4,5,6] merged with [None,7,6] under [absent] is
    [4,5]. *)
Theorem index_diff_is_three_step_transform :
  forall (fuel : nat) (current expected : list Value),
    get_new_merged_list fuel (mkDataMergeUtils "present" "index")
      (VList current) (VList expected)
    = spec_merge_by_index fuel (mkDataMergeUtils "present" "index")
        current expected
    /\ get_new_merged_list fuel (mkDataMergeUtils "absent" "index")
         (VList current) (VList expected)
       = spec_merge_by_index fuel (mkDataMergeUtils "absent" "index")
           current expected
    /\ get_new_merged_list fuel (mkDataMergeUtils "present" "index")
         (VList [VInt 4; VInt 5; VInt 6]) (VList [VNone; VInt 7; VNone])
       = Ret (VList [VInt 4; VInt 7; VInt 6])
    /\ get_new_merged_list fuel (mkDataMergeUtils "absent" "index")
         (VList [VInt 4; VInt 5; VInt 6]) (VList [VNone; VInt 7; VInt 6])
       = Ret (VList [VInt 4; VInt 5]).
Proof.
  intros fuel current expected. repeat split.
  - apply (index_diff_refines fuel (mkDataMergeUtils "present" "index")).
  - apply (index_diff_refines fuel (mkDataMergeUtils "absent" "index")).
Qed.

(* ------------------------------------------------------------------ *)
(** ** A list seen as a dict, and back *)

Lemma spec_positional_mapping_values (l : list Value) :
  forall s : Z, dict_values (spec_positional_mapping s l) = l.
Proof.
  induction l as [|x r IH]; intros s; simpl; trivial.
  f_equal. apply IH.
Qed.

Lemma spec_positional_mapping_get (l : list Value) :
  forall (s : Z) (n : nat),
    dict_get (spec_positional_mapping s l) (KInt (s + Z.of_nat n))
    = nth_error l n.
Proof.
  induction l as [|x r IH]; intros s n; simpl.
  - now destruct n.
  - destruct n as [|n']; simpl.
    + replace (s + 0)%Z with s by lia. now rewrite Z.eqb_refl.
    + destruct (Z.eqb_spec s (s + Z.pos (Pos.of_succ_nat n'))) as [E | _];
        [lia|].
      rewrite <- (IH (s + 1)%Z n'). do 2 f_equal. lia.
Qed.

(** X1. [_convert_dict_to_list] undoes [_convert_list_to_dict]; the dict built
    from a list holds the element of position [n] under the key [n], and
    nothing under a negative key or a key from the length on. *)
Theorem convert_list_dict_round_trip :
  forall the_list : list Value,
    _convert_dict_to_list (VDict (_convert_list_to_dict the_list))
    = Ret (VList the_list)
    /\ (forall n : nat,
          dict_get (_convert_list_to_dict the_list) (KInt (Z.of_nat n))
          = nth_error the_list n)
    /\ (forall i : Z,
          (i < 0 \/ Z.of_nat (List.length the_list) <= i)%Z ->
          dict_get (_convert_list_to_dict the_list) (KInt i) = None).
Proof.
  intros l. rewrite spec_positional_mapping_eq. split; [|split].
  - simpl. now rewrite spec_positional_mapping_values.
  - intros n. apply (spec_positional_mapping_get l 0%Z n).
  - intros i Hi.
    destruct (dict_get (spec_positional_mapping 0 l) (KInt i)) eqn:E; trivial.
    apply dict_get_In in E. apply (in_map fst) in E. simpl in E.
    apply spec_positional_mapping_keys in E as (z & Hz & Hr).
    inversion Hz. lia.
Qed.

Lemma convert_list_dict_round_trip_witness :
  (5 < 0 \/ Z.of_nat (List.length [VInt 7; VInt 8]) <= 5)%Z
  /\ dict_get (_convert_list_to_dict [VInt 7; VInt 8]) (KInt 5) = None.
Proof.
  split.
  - right. simpl. lia.
  - apply (convert_list_dict_round_trip [VInt 7; VInt 8]). right. simpl. lia.
Defined.

(* ------------------------------------------------------------------ *)
(** ** Merging with an empty [expected] *)

Lemma filter_all (A : Type) (f : A -> bool) (l : list A) :
  (forall x, In x l -> f x = true) -> filter f l = l.
Proof.
  induction l as [|x r IH]; simpl; intros H; trivial.
  rewrite (H x (or_introl eq_refl)). f_equal. apply IH. auto.
Qed.

(** X2. Under [present] and under [absent], with a valid [list_diff_type], a
    dict merged with the empty dict and a list merged with the empty list
    come back unchanged. *)
Theorem merge_with_empty_expected :
  forall (fuel : nat) (self : DataMergeUtils) (d : Dict) (l : list Value),
    _merge_type self = "present" \/ _merge_type self = "absent" ->
    _list_diff_type self = "value" \/ _list_diff_type self = "index" ->
    get_new_merged_data (S fuel) self (VDict d) (VDict []) = Ret (VDict d)
    /\ get_new_merged_data (S fuel) self (VList l) (VList []) = Ret (VList l).
Proof.
  intros fuel [mt ldt] d l Hm Hl. simpl in Hm, Hl.
  assert (Hd : forall fuel', get_new_merged_dict_of (get_new_merged_data fuel')
                 (mkDataMergeUtils mt ldt) (VDict d) (VDict [])
               = Ret (VDict d)).
  { intros fuel'. unfold get_new_merged_dict_of, _check_identic.
    rewrite !deepcopy_id. destruct Hm as [-> | ->]; reflexivity. }
  split.
  - simpl. unfold get_new_merged_data_of, _check_identic.
    fold (_check_identic).
    destruct Hm as [-> | ->]; simpl; apply (Hd fuel).
  - simpl. unfold get_new_merged_data_of, get_new_merged_list_of,
      _check_identic, _get_new_merged_list_with_value_diff,
      _get_new_merged_list_with_index_diff_of, get_new_merged_dict_of,
      _check_identic.
    rewrite !deepcopy_id.
    destruct Hm as [-> | ->], Hl as [-> | ->]; simpl.
    + now rewrite app_nil_r.
    + rewrite <- (spec_positional_mapping_values l 0) at 2.
      now rewrite spec_positional_mapping_eq.
    + rewrite filter_all; trivial.
    + rewrite <- (spec_positional_mapping_values l 0) at 2.
      now rewrite spec_positional_mapping_eq.
Qed.

Lemma merge_with_empty_expected_witness :
  ("absent" = "present" \/ "absent" = "absent")
  /\ ("index" = "value" \/ "index" = "index")
  /\ get_new_merged_data 1 (mkDataMergeUtils "absent" "index")
       (VList [VInt 1; VNone]) (VList []) = Ret (VList [VInt 1; VNone]).
Proof.
  assert (H1 : "absent" = "present" \/ "absent" = "absent") by now right.
  assert (H2 : "index" = "value" \/ "index" = "index") by now right.
  split; [exact H1|]. split; [exact H2|].
  apply (merge_with_empty_expected 0 (mkDataMergeUtils "absent" "index")
           [] [VInt 1; VNone] H1 H2).
Defined.

(* ------------------------------------------------------------------ *)
(** ** [present] on an empty [current] *)

Lemma dict_set_new (d : Dict) (k : Key) (v : Value) :
  ~ In k (dict_keys d) -> dict_set d k v = (d ++ [(k, v)])%list.
Proof.
  induction d as [|[k' v'] r IH]; simpl; trivial.
  intros H. destruct (key_eqb k' k) eqn:E.
  - apply key_eqb_eq in E. tauto.
  - f_equal. apply IH. tauto.
Qed.

Lemma dict_get_app (a b : Dict) (k : Key) :
  dict_get (a ++ b)%list k
  = match dict_get a k with
    | Some v => Some v
    | None => dict_get b k
    end.
Proof.
  induction a as [|[k' v'] r IH]; simpl; trivial.
  now destruct (key_eqb k' k).
Qed.

Lemma dict_get_notin (d : Dict) (k : Key) :
  ~ In k (dict_keys d) -> dict_get d k = None.
Proof.
  intros H. destruct (dict_get d k) eqn:E; trivial.
  apply dict_get_In in E. apply (in_map fst) in E. contradiction.
Qed.

Lemma dict_keys_filter_incl (f : Key * Value -> bool) (d : Dict) (k : Key) :
  In k (dict_keys (filter f d)) -> In k (dict_keys d).
Proof.
  unfold dict_keys. rewrite !in_map_iff.
  intros ((k', v) & Hk & Hin). apply filter_In in Hin as [Hin _]. eauto.
Qed.

Lemma present_on_empty_loop rec list_diff_type (suf : Dict) :
  forall pre : Dict,
    NoDup (dict_keys (pre ++ suf)%list) ->
    for_each (dict_keys suf)
      (VDict (filter (fun kv => negb (is_none (snd kv))) pre))
      (merged_dict_step rec (mkDataMergeUtils "present" list_diff_type)
         (VDict []) (pre ++ suf)%list)
    = Ret (VDict (filter (fun kv => negb (is_none (snd kv)))
                    (pre ++ suf)%list)).
Proof.
  induction suf as [|[k e] suf' IH]; intros pre Hnd.
  - simpl. now rewrite app_nil_r.
  - assert (Hk : ~ In k (dict_keys pre)).
    { unfold dict_keys in *. rewrite map_app in Hnd. simpl in Hnd.
      apply NoDup_remove_2 in Hnd. intros H. apply Hnd.
      apply in_or_app. now left. }
    assert (He : dict_get (pre ++ (k, e) :: suf')%list k = Some e).
    { rewrite dict_get_app, (dict_get_notin pre k Hk). simpl.
      now rewrite key_eqb_refl. }
    assert (Hstep :
      merged_dict_step rec (mkDataMergeUtils "present" list_diff_type)
        (VDict []) (pre ++ (k, e) :: suf')%list
        (VDict (filter (fun kv => negb (is_none (snd kv))) pre)) k
      = Ret (VDict (filter (fun kv => negb (is_none (snd kv)))
                      (pre ++ [(k, e)])%list))).
    { unfold merged_dict_step, merged_dict_else. rewrite He.
      cbn [py_get dict_get bind is_dict_or_list is_dict is_list orb].
      rewrite filter_app.
      assert (Hset : forall v,
        dict_set (filter (fun kv => negb (is_none (snd kv))) pre) k v
        = (filter (fun kv => negb (is_none (snd kv))) pre ++ [(k, v)])%list).
      { intros v. apply dict_set_new. intros H.
        apply dict_keys_filter_incl in H. contradiction. }
      destruct e; simpl; rewrite ?He; simpl; rewrite ?Hset, ?app_nil_r;
        reflexivity. }
    simpl for_each. rewrite Hstep. simpl bind.
    replace (pre ++ (k, e) :: suf')%list
      with ((pre ++ [(k, e)]) ++ suf')%list
      by (rewrite <- app_assoc; reflexivity).
    apply IH. rewrite <- app_assoc. exact Hnd.
Qed.

(** X3. Under [present], merging into an empty dict gives [expected] without
    its entries whose value is [None], in the order of [expected]; nested
    values are stored as they are, whatever [list_diff_type] is. *)
Theorem present_on_empty_current :
  forall (fuel : nat) (list_diff_type : string) (expected : Dict),
    wf_dict expected ->
    get_new_merged_data (S fuel) (mkDataMergeUtils "present" list_diff_type)
      (VDict []) (VDict expected)
    = Ret (VDict (filter (fun kv => negb (is_none (snd kv))) expected)).
Proof.
  intros fuel ldt expected Hnd.
  simpl. unfold get_new_merged_data_of, get_new_merged_dict_of, _check_identic.
  simpl.
  apply (present_on_empty_loop (get_new_merged_data fuel) ldt expected []).
  exact Hnd.
Qed.

Lemma present_on_empty_current_witness :
  wf_dict [(KStr "A", VNone); (KStr "B", VList [VNone])]
  /\ get_new_merged_data 1 (mkDataMergeUtils "present" "value")
       (VDict []) (VDict [(KStr "A", VNone); (KStr "B", VList [VNone])])
     = Ret (VDict [(KStr "B", VList [VNone])]).
Proof.
  assert (H : wf_dict [(KStr "A", VNone); (KStr "B", VList [VNone])]).
  { repeat constructor; simpl; intuition discriminate. }
  split; [exact H|].
  apply (present_on_empty_current 0 "value"
           [(KStr "A", VNone); (KStr "B", VList [VNone])] H).
Defined.

(* ------------------------------------------------------------------ *)
(** ** The exceptions of a merge under a valid configuration *)

Lemma bind_dict_or_key_error (m : Res Value) (f : Value -> Res Value) :
  ret_or_key_error m -> (forall v, m = Ret v -> dict_or_key_error (f v)) ->
  dict_or_key_error (bind m f).
Proof.
  intros [[v ->] | ->] Hf; simpl; [now apply Hf | now right].
Qed.

Lemma for_each_dict_or_key_error (ks : list Key)
  (body : Value -> Key -> Res Value) :
  (forall m k, In k ks -> dict_or_key_error (body (VDict m) k)) ->
  forall m, dict_or_key_error (for_each ks (VDict m) body).
Proof.
  induction ks as [|k r IH]; intros Hb m; simpl.
  - left. now exists m.
  - destruct (Hb m k (or_introl eq_refl)) as [[m1 ->] | ->]; simpl.
    + apply IH. intros m0 k0 H0. apply Hb. now right.
    + now right.
Qed.

Lemma merged_dict_else_dict_or_key_error self expected m key e :
  _merge_type self = "present" \/ _merge_type self = "absent" ->
  dict_get expected key = Some e ->
  dict_or_key_error (merged_dict_else self expected (VDict m) key).
Proof.
  intros Hm He. unfold merged_dict_else, dict_or_key_error.
  destruct Hm as [-> | ->]; simpl; rewrite He; simpl.
  - destruct e; simpl; eauto.
  - unfold dict_mem. destruct (dict_get m key) as [g|]; simpl.
    + destruct (py_eq g e); eauto.
    + destruct e; eauto.
Qed.

Section Taxonomy.
Variable rec : Method.
Variable n : nat.
Variable self : DataMergeUtils.
Hypothesis Hmt : _merge_type self = "present" \/ _merge_type self = "absent".
Hypothesis Hrec : forall c e,
  is_dict_or_list e = true -> depth e < n -> ret_or_key_error (rec self c e).

Lemma merged_dict_step_dict_or_key_error current expected m key :
  In key (dict_keys expected) ->
  (forall k v, In (k, v) expected -> depth v < n) ->
  dict_or_key_error
    (merged_dict_step rec self (VDict current) expected (VDict m) key).
Proof.
  intros Hin Hd. apply In_dict_keys_get in Hin as [e He].
  pose proof (merged_dict_else_dict_or_key_error self expected m key e Hmt He)
    as Helse.
  unfold merged_dict_step. rewrite He.
  destruct (is_dict_or_list e) eqn:Ee; [|exact Helse].
  simpl py_get. destruct (dict_get current key) as [c|]; simpl bind;
    [|exact Helse].
  destruct (is_dict_or_list c); [|exact Helse].
  simpl. rewrite He.
  destruct (dict_get m key) as [mk|]; simpl; [|now right].
  destruct (Hrec mk e Ee) as [[v ->] | ->]; simpl.
  - apply dict_get_In in He. now apply (Hd key).
  - left. eauto.
  - now right.
Qed.

Lemma get_new_merged_dict_of_dict_or_key_error current expected :
  (forall k v, In (k, v) expected -> depth v < n) ->
  dict_or_key_error
    (get_new_merged_dict_of rec self (VDict current) (VDict expected)).
Proof.
  intros Hd. unfold get_new_merged_dict_of, _check_identic.
  rewrite !deepcopy_id.
  destruct Hmt as [E | E]; rewrite E; simpl String.eqb; cbv iota;
    apply for_each_dict_or_key_error; intros m k Hk;
    now apply merged_dict_step_dict_or_key_error.
Qed.
End Taxonomy.

Lemma dict_or_key_error_ret (r : Res Value) :
  dict_or_key_error r -> ret_or_key_error r.
Proof. intros [[m ->] | ->]; [left; eauto | now right]. Qed.

Lemma get_new_merged_data_ret_or_key_error (fuel : nat) :
  forall self current expected,
    valid_config self ->
    is_dict_or_list expected = true ->
    depth expected < fuel ->
    ret_or_key_error (get_new_merged_data fuel self current expected).
Proof.
  induction fuel as [|f IH]; intros self current expected Hv He Hd; [lia|].
  destruct Hv as [Hmt Hldt].
  simpl. unfold get_new_merged_data_of, _check_identic.
  destruct Hmt as [E | Hmt]; [rewrite E; simpl; left; eauto|].
  assert (Hid : String.eqb (_merge_type self) "identic" = false)
    by (destruct Hmt as [-> | ->]; reflexivity).
  rewrite Hid.
  destruct (isinstance_type_of current expected) eqn:Hi; simpl negb; cbv iota.
  2: { destruct Hmt as [-> | ->]; simpl; left; eauto. }
  assert (Hrec : forall c e, is_dict_or_list e = true -> depth e < f ->
            ret_or_key_error (get_new_merged_data f self c e)).
  { intros c e H1 H2. apply IH; trivial.
    split; [right; exact Hmt | exact Hldt]. }
  destruct current, expected; simpl in He, Hi; try discriminate.
  - simpl is_list. cbv iota.
    unfold get_new_merged_list_of, _check_identic. rewrite Hid.
    destruct Hldt as [-> | ->]; simpl String.eqb; cbv iota.
    + unfold _get_new_merged_list_with_value_diff.
      destruct Hmt as [-> | ->]; simpl; left; eauto.
    + unfold _get_new_merged_list_with_index_diff_of.
      destruct (get_new_merged_dict_of_dict_or_key_error
                  (get_new_merged_data f) f self Hmt Hrec
                  (_convert_list_to_dict l) (_convert_list_to_dict l0))
        as [[m ->] | ->]; simpl.
      * intros k v Hin. apply convert_list_to_dict_In in Hin.
        apply depth_list_item in Hin. lia.
      * left. eauto.
      * now right.
  - simpl is_list. cbv iota. apply dict_or_key_error_ret.
    apply (get_new_merged_dict_of_dict_or_key_error
             (get_new_merged_data f) f self Hmt Hrec).
    intros k v Hin. apply depth_dict_item in Hin. lia.
Qed.

(** X4. With [merge_type] and [list_diff_type] within their enumerations, an
    [expected] that is a dict or a list and a budget above its depth, the
    dispatcher returns a value or raises [KeyError]: no [TypeError],
    [ValueError], [IndexError] or [AttributeError] comes out of it,
    whatever [current] is. *)
Theorem valid_merge_raises_only_key_error :
  forall (fuel : nat) (self : DataMergeUtils) (current expected : Value),
    valid_config self ->
    is_dict_or_list expected = true ->
    depth expected < fuel ->
    (exists r, get_new_merged_data fuel self current expected = Ret r)
    \/ get_new_merged_data fuel self current expected = Raise KeyError.
Proof.
  intros fuel self current expected Hv He Hd.
  now apply get_new_merged_data_ret_or_key_error.
Qed.

Lemma valid_merge_raises_only_key_error_witness :
  valid_config (mkDataMergeUtils "absent" "index")
  /\ is_dict_or_list (VList [VNone]) = true
  /\ depth (VList [VNone]) < 2
  /\ ((exists r, get_new_merged_data 2 (mkDataMergeUtils "absent" "index")
                   (VInt 3) (VList [VNone]) = Ret r)
      \/ get_new_merged_data 2 (mkDataMergeUtils "absent" "index")
           (VInt 3) (VList [VNone]) = Raise KeyError).
Proof.
  assert (H1 : valid_config (mkDataMergeUtils "absent" "index")).
  { split; simpl; auto. }
  assert (H2 : is_dict_or_list (VList [VNone]) = true) by reflexivity.
  assert (H3 : depth (VList [VNone]) < 2) by (simpl; lia).
  split; [exact H1|]. split; [exact H2|]. split; [exact H3|].
  apply (valid_merge_raises_only_key_error 2
           (mkDataMergeUtils "absent" "index") (VInt 3) (VList [VNone])
           H1 H2 H3).
Defined.

(* ------------------------------------------------------------------ *)
(** ** The mapping merger under [absent] *)

Lemma Subseq_refl {A : Type} (l : list A) : Subseq l l.
Proof. induction l; constructor; trivial. Qed.

Lemma Subseq_trans {A : Type} (l1 l2 l3 : list A) :
  Subseq l1 l2 -> Subseq l2 l3 -> Subseq l1 l3.
Proof.
  intros H12 H23. revert l1 H12.
  induction H23 as [|x l2 l3 _ IH|x l2 l3 _ IH]; intros l1 H12.
  - exact H12.
  - inversion H12; subst.
    + apply Subseq_keep. now apply IH.
    + apply Subseq_drop. now apply IH.
  - apply Subseq_drop. now apply IH.
Qed.

Lemma Subseq_In {A : Type} (l l' : list A) (x : A) :
  Subseq l l' -> In x l -> In x l'.
Proof.
  induction 1 as [|y l l' _ IH|y l l' _ IH]; simpl; intuition.
Qed.

Lemma Subseq_NoDup {A : Type} (l l' : list A) :
  Subseq l l' -> NoDup l' -> NoDup l.
Proof.
  induction 1 as [|y l l' Hs IH|y l l' Hs IH]; intros Hnd; trivial.
  - inversion Hnd; subst. constructor; auto.
    intros Hin. apply (Subseq_In _ _ _ Hs) in Hin. contradiction.
  - inversion Hnd; subst. auto.
Qed.

Lemma Subseq_length {A : Type} (l l' : list A) :
  Subseq l l' -> List.length l <= List.length l'.
Proof. induction 1; simpl; lia. Qed.

Lemma dict_keys_del_Subseq (d : Dict) (k : Key) :
  Subseq (dict_keys (dict_del d k)) (dict_keys d).
Proof.
  induction d as [|[k' v'] r IH]; simpl.
  - constructor.
  - destruct (key_eqb k' k); simpl.
    + apply Subseq_drop. apply Subseq_refl.
    + now apply Subseq_keep.
Qed.

Lemma dict_get_del_other (d : Dict) (k k' : Key) :
  k <> k' -> dict_get (dict_del d k) k' = dict_get d k'.
Proof.
  intros Hne. induction d as [|[k0 v0] r IH]; simpl; trivial.
  destruct (key_eqb k0 k) eqn:E; simpl.
  - apply key_eqb_eq in E. subst k0.
    apply key_eqb_neq in Hne. now rewrite Hne.
  - now rewrite IH.
Qed.

Lemma dict_get_del_same (d : Dict) (k : Key) :
  NoDup (dict_keys d) -> dict_get (dict_del d k) k = None.
Proof.
  induction d as [|[k0 v0] r IH]; simpl; trivial.
  intros Hnd. inversion Hnd; subst.
  destruct (key_eqb k0 k) eqn:E; simpl.
  - apply key_eqb_eq in E. subst k0. now apply dict_get_notin.
  - rewrite E. auto.
Qed.

Lemma py_eq_none_l (e : Value) : py_eq VNone e = is_none e.
Proof. now destruct e. Qed.

Lemma py_eq_mixed_composites (c e : Value) :
  is_dict_or_list c = true -> is_dict_or_list e = true ->
  same_composite_kind (Some c) e = false -> py_eq c e = false.
Proof. destruct c, e; simpl; intros; trivial; discriminate. Qed.

(** One turn of the loop under [absent], on a dict [m] that still holds
    what [current] holds at [key]. *)
Lemma merged_dict_step_absent rec list_diff_type current expected m key e :
  dict_get expected key = Some e ->
  dict_get m key = dict_get current key ->
  merged_dict_step rec (mkDataMergeUtils "absent" list_diff_type)
    (VDict current) expected (VDict m) key
  = match dict_get current key with
    | Some c =>
        if is_dict_or_list e && is_dict_or_list c then
          new <- rec (mkDataMergeUtils "absent" list_diff_type) c e ;;
          Ret (VDict (dict_set m key new))
        else if py_eq c e then Ret (VDict (dict_del m key))
        else Ret (VDict m)
    | None => if is_none e then Raise KeyError else Ret (VDict m)
    end.
Proof.
  intros He Hm.
  assert (Helse :
    merged_dict_else (mkDataMergeUtils "absent" list_diff_type) expected
      (VDict m) key
    = match dict_get current key with
      | Some c => if py_eq c e then Ret (VDict (dict_del m key))
                  else Ret (VDict m)
      | None => if is_none e then Raise KeyError else Ret (VDict m)
      end).
  { rewrite (merged_dict_else_absent list_diff_type expected m key e He).
    rewrite Hm. destruct (dict_get current key); trivial. }
  unfold merged_dict_step. rewrite He.
  destruct (is_dict_or_list e) eqn:Ee; simpl andb.
  - simpl py_get. destruct (dict_get current key) as [c|] eqn:Ec; simpl bind.
    + destruct (is_dict_or_list c) eqn:Ecc.
      * simpl. rewrite Hm, He. reflexivity.
      * rewrite Helse. reflexivity.
    + rewrite Helse. reflexivity.
  - rewrite Helse. destruct (dict_get current key) as [c|]; trivial.
Qed.

Section AbsentMapping.
Variable rec : Method.
Variable list_diff_type : string.
Variables current expected : Dict.

Hypothesis Hrec_mismatch : forall c e r,
  rec (mkDataMergeUtils "absent" list_diff_type) c e = Ret r ->
  isinstance_type_of c e = false -> r = c.

Lemma merged_dict_step_absent_inv (m : Dict) (key : Key) (e r : Value) :
  dict_get expected key = Some e ->
  dict_get m key = dict_get current key ->
  merged_dict_step rec (mkDataMergeUtils "absent" list_diff_type)
    (VDict current) expected (VDict m) key = Ret r ->
  exists m1,
    r = VDict m1
    /\ Subseq (dict_keys m1) (dict_keys m)
    /\ (forall k, k <> key -> dict_get m1 k = dict_get m k)
    /\ (NoDup (dict_keys m) ->
        same_composite_kind (dict_get current key) e = false ->
        dict_get m1 key = absent_at current key e).
Proof.
  intros He Hm. rewrite (merged_dict_step_absent _ _ _ _ _ _ e He Hm).
  unfold absent_at.
  destruct (dict_get current key) as [c|] eqn:Ec.
  - destruct (is_dict_or_list e && is_dict_or_list c) eqn:Eb.
    + apply andb_true_iff in Eb as [Ee Ecc].
      destruct (rec _ c e) as [new| |] eqn:Er; simpl; try discriminate.
      intros [= <-]. eexists. split; [reflexivity|].
      assert (Hin : In key (dict_keys m)).
      { apply dict_mem_In. unfold dict_mem. now rewrite Hm. }
      split; [|split].
      * rewrite (dict_keys_set_mem m key new Hin). apply Subseq_refl.
      * intros k Hk. apply dict_get_set_other. congruence.
      * intros _ Hs. rewrite dict_get_set_same.
        pose proof (mixed_composites_mismatch c e Ecc Ee Hs) as Hi.
        rewrite (Hrec_mismatch c e new Er Hi).
        now rewrite (py_eq_mixed_composites c e Ecc Ee Hs).
    + destruct (py_eq c e) eqn:Eq; intros [= <-]; eexists;
        (split; [reflexivity|]); (split; [|split]).
      * apply dict_keys_del_Subseq.
      * intros k Hk. apply dict_get_del_other. congruence.
      * intros Hnd _. now apply dict_get_del_same.
      * apply Subseq_refl.
      * trivial.
      * intros _ _. congruence.
  - destruct (is_none e); [discriminate|]. intros [= <-].
    exists m. repeat split; trivial;
      try apply Subseq_refl; try (intros _ _; congruence).
Qed.

Lemma merged_dict_loop_absent (ks : list Key) :
  forall (m : Dict) (r : Value),
    NoDup ks ->
    NoDup (dict_keys m) ->
    (forall k, In k ks -> dict_get m k = dict_get current k) ->
    (forall k, In k ks -> exists e, dict_get expected k = Some e) ->
    for_each ks (VDict m)
      (merged_dict_step rec (mkDataMergeUtils "absent" list_diff_type)
         (VDict current) expected) = Ret r ->
    exists m',
      r = VDict m'
      /\ Subseq (dict_keys m') (dict_keys m)
      /\ (forall k, ~ In k ks -> dict_get m' k = dict_get m k)
      /\ (forall k e, In k ks -> dict_get expected k = Some e ->
          same_composite_kind (dict_get current k) e = false ->
          dict_get m' k = absent_at current k e).
Proof.
  induction ks as [|key rest IH]; intros m r Hnd Hndm Hm He Hrun.
  - simpl in Hrun. inversion Hrun. subst. exists m.
    repeat split; trivial; [apply Subseq_refl | intros k e []].
  - inversion Hnd as [|? ? Hnotin Hnd']. subst.
    destruct (He key (or_introl eq_refl)) as [e Hek].
    simpl in Hrun.
    destruct (merged_dict_step rec _ (VDict current) expected (VDict m) key)
      as [s1| |] eqn:Es; simpl in Hrun; try discriminate.
    destruct (merged_dict_step_absent_inv m key e s1 Hek
                (Hm key (or_introl eq_refl)) Es)
      as (m1 & -> & Hsub1 & Hoth1 & Hat1).
    destruct (IH m1 r Hnd') as (m' & -> & Hsub & Hoth & Hat); trivial.
    + now apply (Subseq_NoDup _ _ Hsub1).
    + intros k Hk. rewrite Hoth1; [apply Hm; now right|].
      intros ->. contradiction.
    + intros k Hk. apply He. now right.
    + exists m'. split; [reflexivity|]. split; [|split].
      * now apply (Subseq_trans _ _ _ Hsub).
      * intros k Hk. rewrite Hoth by (intros H; apply Hk; now right).
        apply Hoth1. intros ->. apply Hk. now left.
      * intros k e0 [-> | Hk] Hek0 Hs.
        -- rewrite Hoth by exact Hnotin.
           assert (e0 = e) by congruence. subst e0. now apply Hat1.
        -- now apply (Hat k e0).
Qed.
End AbsentMapping.

Lemma absent_mismatch_ret (fuel : nat) (list_diff_type : string)
  (c e r : Value) :
  get_new_merged_data fuel (mkDataMergeUtils "absent" list_diff_type) c e
  = Ret r ->
  isinstance_type_of c e = false -> r = c.
Proof.
  destruct fuel as [|f]; simpl; [discriminate|].
  unfold get_new_merged_data_of, _check_identic. simpl.
  intros H Hi. rewrite Hi in H. simpl in H. rewrite deepcopy_id in H.
  congruence.
Qed.

(** X5. When the mapping merger returns under [absent], the result is a dict
    whose keys are keys of [current], in the order of [current]. A key of
    [expected] outside the same-composite-kind recursion case is gone if
    [current] held it with an equal value and keeps the value of [current]
    otherwise; a key that [expected] does not hold keeps what [current]
    holds. *)
Theorem absent_mapping_merge :
  forall (fuel : nat) (list_diff_type : string) (current expected : Dict)
         (r : Value),
    wf_dict current -> wf_dict expected ->
    get_new_merged_dict fuel (mkDataMergeUtils "absent" list_diff_type)
      (VDict current) (VDict expected) = Ret r ->
    exists merged,
      r = VDict merged
      /\ Subseq (dict_keys merged) (dict_keys current)
      /\ (forall k e,
            dict_get expected k = Some e ->
            same_composite_kind (dict_get current k) e = false ->
            dict_get merged k = absent_at current k e)
      /\ (forall k,
            dict_get expected k = None ->
            dict_get merged k = dict_get current k).
Proof.
  intros fuel ldt current expected r Hc He Hrun.
  unfold get_new_merged_dict, get_new_merged_dict_of, _check_identic in Hrun.
  simpl String.eqb in Hrun. cbv iota in Hrun. rewrite deepcopy_id in Hrun.
  destruct (merged_dict_loop_absent (get_new_merged_data fuel) ldt
              current expected (absent_mismatch_ret fuel ldt)
              (dict_keys expected) current r)
    as (m' & -> & Hsub & Hoth & Hat); trivial.
  - intros k Hk. now apply In_dict_keys_get.
  - exists m'. split; [reflexivity|]. split; [exact Hsub|]. split.
    + intros k e Hk Hs. apply (Hat k e); trivial.
      apply dict_get_In in Hk. now apply (in_map fst) in Hk.
    + intros k Hk. apply Hoth. now apply dict_get_None_keys.
Qed.

Lemma absent_mapping_merge_witness :
  wf_dict [(KStr "A", VInt 1); (KStr "B", VInt 2)]
  /\ wf_dict [(KStr "A", VInt 1); (KStr "B", VInt 3)]
  /\ get_new_merged_dict 0 (mkDataMergeUtils "absent" "value")
       (VDict [(KStr "A", VInt 1); (KStr "B", VInt 2)])
       (VDict [(KStr "A", VInt 1); (KStr "B", VInt 3)])
     = Ret (VDict [(KStr "B", VInt 2)])
  /\ exists merged,
       VDict [(KStr "B", VInt 2)] = VDict merged
       /\ Subseq (dict_keys merged)
            (dict_keys [(KStr "A", VInt 1); (KStr "B", VInt 2)]).
Proof.
  assert (H1 : wf_dict [(KStr "A", VInt 1); (KStr "B", VInt 2)]).
  { repeat constructor; simpl; intuition discriminate. }
  assert (H2 : wf_dict [(KStr "A", VInt 1); (KStr "B", VInt 3)]).
  { repeat constructor; simpl; intuition discriminate. }
  assert (H3 : get_new_merged_dict 0 (mkDataMergeUtils "absent" "value")
                 (VDict [(KStr "A", VInt 1); (KStr "B", VInt 2)])
                 (VDict [(KStr "A", VInt 1); (KStr "B", VInt 3)])
               = Ret (VDict [(KStr "B", VInt 2)])) by reflexivity.
  split; [exact H1|]. split; [exact H2|]. split; [exact H3|].
  destruct (absent_mapping_merge 0 "value" _ _ _ H1 H2 H3)
    as (merged & Hr & Hsub & _).
  exists merged. split; [exact Hr | exact Hsub].
Defined.

Section AbsentReturns.
Variable rec : Method.
Variable n : nat.
Variable list_diff_type : string.
Variables current expected : Dict.

Hypothesis Hrec_mismatch : forall c e r,
  rec (mkDataMergeUtils "absent" list_diff_type) c e = Ret r ->
  isinstance_type_of c e = false -> r = c.
Hypothesis Hrec_total : forall c e,
  is_dict_or_list e = true -> wf_value e -> null_free e = true ->
  depth e < n ->
  exists r, rec (mkDataMergeUtils "absent" list_diff_type) c e = Ret r.

Lemma merged_dict_step_absent_returns (m : Dict) (key : Key) (e : Value) :
  dict_get expected key = Some e ->
  dict_get m key = dict_get current key ->
  wf_value e -> null_free e = true -> depth e < n ->
  exists m1,
    merged_dict_step rec (mkDataMergeUtils "absent" list_diff_type)
      (VDict current) expected (VDict m) key = Ret (VDict m1).
Proof.
  intros He Hm Hwf Hnf Hd.
  rewrite (merged_dict_step_absent _ _ _ _ _ _ e He Hm).
  destruct (dict_get current key) as [c|].
  - destruct (is_dict_or_list e && is_dict_or_list c) eqn:Eb.
    + apply andb_true_iff in Eb as [Ee _].
      destruct (Hrec_total c e Ee Hwf Hnf Hd) as [r ->]. simpl. eauto.
    + destruct (py_eq c e); eauto.
  - destruct e; simpl in Hnf; try discriminate; simpl; eauto.
Qed.

Lemma merged_dict_loop_absent_returns (ks : list Key) :
  forall m : Dict,
    NoDup ks ->
    (forall k, In k ks -> dict_get m k = dict_get current k) ->
    (forall k, In k ks ->
       exists e, dict_get expected k = Some e /\ wf_value e
                 /\ null_free e = true /\ depth e < n) ->
    exists m',
      for_each ks (VDict m)
        (merged_dict_step rec (mkDataMergeUtils "absent" list_diff_type)
           (VDict current) expected) = Ret (VDict m').
Proof.
  induction ks as [|key rest IH]; intros m Hnd Hm He.
  - exists m. reflexivity.
  - inversion Hnd as [|? ? Hnotin Hnd']. subst.
    destruct (He key (or_introl eq_refl)) as (e & Hek & Hwf & Hnf & Hd).
    pose proof (Hm key (or_introl eq_refl)) as Hmk.
    destruct (merged_dict_step_absent_returns m key e Hek Hmk Hwf Hnf Hd)
      as [m1 Hs].
    destruct (merged_dict_step_absent_inv rec list_diff_type current expected
                Hrec_mismatch m key e (VDict m1) Hek Hmk Hs)
      as (m1' & Heq & _ & Hoth & _).
    inversion Heq. subst m1'.
    destruct (IH m1 Hnd') as [m' Hrun].
    + intros k Hk. rewrite Hoth; [apply Hm; now right|].
      intros ->. contradiction.
    + intros k Hk. apply He. now right.
    + exists m'. simpl. rewrite Hs. exact Hrun.
Qed.
End AbsentReturns.

Lemma null_free_dict_item (d : Dict) (k : Key) (v : Value) :
  null_free (VDict d) = true -> In (k, v) d -> null_free v = true.
Proof.
  simpl. rewrite forallb_forall. intros H Hin. apply (H (k, v) Hin).
Qed.

Lemma null_free_list_item (l : list Value) (v : Value) :
  null_free (VList l) = true -> In v l -> null_free v = true.
Proof. simpl. rewrite forallb_forall. auto. Qed.

Lemma absent_returns (list_diff_type : string) :
  list_diff_type = "value" \/ list_diff_type = "index" ->
  forall (fuel : nat) (c e : Value),
    is_dict_or_list e = true -> wf_value e -> null_free e = true ->
    depth e < fuel ->
    exists r,
      get_new_merged_data fuel (mkDataMergeUtils "absent" list_diff_type) c e
      = Ret r.
Proof.
  intros Hldt. induction fuel as [|f IH]; intros c e He Hwf Hnf Hd; [lia|].
  simpl. unfold get_new_merged_data_of, _check_identic.
  simpl String.eqb. cbv iota.
  destruct (isinstance_type_of c e) eqn:Hi; simpl negb; cbv iota;
    [|eexists; reflexivity].
  destruct c, e; simpl in He, Hi; try discriminate.
  - simpl is_list. cbv iota.
    unfold get_new_merged_list_of, _check_identic.
    simpl String.eqb. cbv iota.
    destruct Hldt as [-> | ->]; simpl String.eqb; cbv iota.
    + eexists. reflexivity.
    + unfold _get_new_merged_list_with_index_diff_of, get_new_merged_dict_of,
        _check_identic.
      simpl String.eqb. cbv iota. rewrite deepcopy_id.
      destruct (merged_dict_loop_absent_returns (get_new_merged_data f) f
                  "index" (_convert_list_to_dict l) (_convert_list_to_dict l0)
                  (absent_mismatch_ret f "index") IH
                  (dict_keys (_convert_list_to_dict l0))
                  (_convert_list_to_dict l))
        as [m' Hrun].
      * apply convert_list_to_dict_wf.
      * trivial.
      * intros k Hk. apply In_dict_keys_get in Hk as [v Hv].
        exists v. split; [exact Hv|].
        apply dict_get_In, convert_list_to_dict_In in Hv.
        split; [now apply (wf_value_list l0)|].
        split; [now apply (null_free_list_item l0)|].
        apply depth_list_item in Hv. lia.
      * rewrite Hrun. simpl. eexists. reflexivity.
  - simpl is_list. cbv iota.
    unfold get_new_merged_dict_of, _check_identic.
    simpl String.eqb. cbv iota. rewrite deepcopy_id.
    apply wf_value_dict in Hwf as [Hnd Hvals].
    destruct (merged_dict_loop_absent_returns (get_new_merged_data f) f
                list_diff_type d d0
                (absent_mismatch_ret f list_diff_type) IH
                (dict_keys d0) d)
      as [m' Hrun].
    + exact Hnd.
    + trivial.
    + intros k Hk. apply In_dict_keys_get in Hk as [v Hv].
      exists v. split; [exact Hv|]. apply dict_get_In in Hv.
      split; [now apply (Hvals k)|].
      split; [now apply (null_free_dict_item d0 k)|].
      apply depth_dict_item in Hv. lia.
    + rewrite Hrun. eexists. reflexivity.
Qed.

(** X6. Under [absent], with a valid [list_diff_type] and a budget above the
    depth of [expected], the merge returns a value whenever [expected] is
    a dict or a list that holds no [None] at any depth, whatever [current]
    is. *)
Theorem absent_returns_without_null :
  forall (fuel : nat) (list_diff_type : string) (current expected : Value),
    list_diff_type = "value" \/ list_diff_type = "index" ->
    is_dict_or_list expected = true ->
    wf_value expected ->
    null_free expected = true ->
    depth expected < fuel ->
    exists r,
      get_new_merged_data fuel (mkDataMergeUtils "absent" list_diff_type)
        current expected = Ret r.
Proof.
  intros fuel ldt current expected Hldt. now apply absent_returns.
Qed.

Lemma absent_returns_without_null_witness :
  ("index" = "value" \/ "index" = "index")
  /\ is_dict_or_list (VDict [(KStr "A", VList [VInt 1])]) = true
  /\ wf_value (VDict [(KStr "A", VList [VInt 1])])
  /\ null_free (VDict [(KStr "A", VList [VInt 1])]) = true
  /\ depth (VDict [(KStr "A", VList [VInt 1])]) < 3
  /\ exists r,
       get_new_merged_data 3 (mkDataMergeUtils "absent" "index")
         (VDict [(KStr "A", VList [])]) (VDict [(KStr "A", VList [VInt 1])])
       = Ret r.
Proof.
  assert (H1 : "index" = "value" \/ "index" = "index") by now right.
  assert (H2 : is_dict_or_list (VDict [(KStr "A", VList [VInt 1])]) = true)
    by reflexivity.
  assert (H3 : wf_value (VDict [(KStr "A", VList [VInt 1])])).
  { simpl. repeat split; trivial. repeat constructor. simpl. tauto. }
  assert (H4 : null_free (VDict [(KStr "A", VList [VInt 1])]) = true)
    by reflexivity.
  assert (H5 : depth (VDict [(KStr "A", VList [VInt 1])]) < 3)
    by (simpl; lia).
  split; [exact H1|]. split; [exact H2|]. split; [exact H3|].
  split; [exact H4|]. split; [exact H5|].
  apply (absent_returns_without_null 3 "index"
           (VDict [(KStr "A", VList [])]) (VDict [(KStr "A", VList [VInt 1])])
           H1 H2 H3 H4 H5).
Defined.

Lemma merged_dict_loop_absent_key_error
  (fuel : nat) (list_diff_type : string) (current expected : Dict) (key : Key) :
  list_diff_type = "value" \/ list_diff_type = "index" ->
  dict_get expected key = Some VNone ->
  dict_get current key = None ->
  (forall k v, In (k, v) expected -> depth v < fuel) ->
  forall (ks : list Key) (m : Dict),
    NoDup ks -> In key ks -> incl ks (dict_keys expected) ->
    (forall k, In k ks -> dict_get m k = dict_get current k) ->
    for_each ks (VDict m)
      (merged_dict_step (get_new_merged_data fuel)
         (mkDataMergeUtils "absent" list_diff_type) (VDict current) expected)
    = Raise KeyError.
Proof.
  intros Hldt Hke Hkc Hd.
  induction ks as [|k0 rest IH]; intros m Hnd Hin Hincl Hm; [destruct Hin|].
  inversion Hnd as [|? ? Hnotin Hnd']. subst.
  pose proof (Hm k0 (or_introl eq_refl)) as Hmk. simpl.
  destruct (key_eq_dec k0 key) as [-> | Hne].
  - rewrite (merged_dict_step_absent _ _ _ _ _ _ VNone Hke Hmk).
    now rewrite Hkc.
  - destruct Hin as [E | Hin]; [contradiction|].
    assert (Hk0 : In k0 (dict_keys expected))
      by (apply Hincl; now left).
    assert (Hrec : forall c e, is_dict_or_list e = true -> depth e < fuel ->
              ret_or_key_error
                (get_new_merged_data fuel
                   (mkDataMergeUtils "absent" list_diff_type) c e)).
    { intros c e He Hde. apply get_new_merged_data_ret_or_key_error; trivial.
      split; simpl; auto. }
    destruct (merged_dict_step_dict_or_key_error (get_new_merged_data fuel)
                fuel (mkDataMergeUtils "absent" list_diff_type)
                (or_intror eq_refl) Hrec current expected m k0 Hk0 Hd)
      as [[m1 Hs] | Hs]; rewrite Hs; simpl; trivial.
    apply In_dict_keys_get in Hk0 as [e0 He0].
    destruct (merged_dict_step_absent_inv (get_new_merged_data fuel)
                list_diff_type current expected
                (absent_mismatch_ret fuel list_diff_type)
                m k0 e0 (VDict m1) He0 Hmk Hs)
      as (m1' & Heq & _ & Hoth & _).
    inversion Heq. subst m1'.
    apply IH; trivial.
    + intros k Hk. apply Hincl. now right.
    + intros k Hk. rewrite Hoth; [apply Hm; now right|].
      intros ->. contradiction.
Qed.

(** X7. Under [absent], with a valid [list_diff_type] and a budget that
    covers the depth of [expected], the mapping merger raises [KeyError]
    as soon as [expected] holds [None] under a key that [current] does not
    hold, whatever else the two dicts hold. *)
Theorem absent_null_on_missing_key_raises :
  forall (fuel : nat) (list_diff_type : string) (current expected : Dict)
         (key : Key),
    list_diff_type = "value" \/ list_diff_type = "index" ->
    wf_dict expected ->
    depth (VDict expected) <= fuel ->
    dict_get expected key = Some VNone ->
    dict_get current key = None ->
    get_new_merged_dict fuel (mkDataMergeUtils "absent" list_diff_type)
      (VDict current) (VDict expected) = Raise KeyError.
Proof.
  intros fuel ldt current expected key Hldt Hnd Hd Hke Hkc.
  unfold get_new_merged_dict, get_new_merged_dict_of, _check_identic.
  simpl String.eqb. cbv iota. rewrite deepcopy_id.
  apply (merged_dict_loop_absent_key_error fuel ldt current expected key);
    trivial.
  - intros k v Hin. apply depth_dict_item in Hin. lia.
  - apply dict_get_In in Hke. now apply (in_map fst) in Hke.
  - apply incl_refl.
Qed.

Lemma absent_null_on_missing_key_raises_witness :
  ("value" = "value" \/ "value" = "index")
  /\ wf_dict [(KStr "A", VInt 1); (KStr "B", VNone)]
  /\ depth (VDict [(KStr "A", VInt 1); (KStr "B", VNone)]) <= 1
  /\ dict_get [(KStr "A", VInt 1); (KStr "B", VNone)] (KStr "B") = Some VNone
  /\ dict_get [(KStr "A", VInt 1)] (KStr "B") = None
  /\ get_new_merged_dict 1 (mkDataMergeUtils "absent" "value")
       (VDict [(KStr "A", VInt 1)])
       (VDict [(KStr "A", VInt 1); (KStr "B", VNone)]) = Raise KeyError.
Proof.
  assert (H1 : "value" = "value" \/ "value" = "index") by now left.
  assert (H2 : wf_dict [(KStr "A", VInt 1); (KStr "B", VNone)]).
  { repeat constructor; simpl; intuition discriminate. }
  assert (H3 : depth (VDict [(KStr "A", VInt 1); (KStr "B", VNone)]) <= 1)
    by (simpl; lia).
  assert (H4 : dict_get [(KStr "A", VInt 1); (KStr "B", VNone)] (KStr "B")
               = Some VNone) by reflexivity.
  assert (H5 : dict_get [(KStr "A", VInt 1)] (KStr "B") = None)
    by reflexivity.
  split; [exact H1|]. split; [exact H2|]. split; [exact H3|].
  split; [exact H4|]. split; [exact H5|].
  apply (absent_null_on_missing_key_raises 1 "value"
           [(KStr "A", VInt 1)] [(KStr "A", VInt 1); (KStr "B", VNone)]
           (KStr "B") H1 H2 H3 H4 H5).
Defined.

(* ------------------------------------------------------------------ *)
(** ** The keys of a mapping merged under [present] *)

(** One turn of the loop under [present], on a dict [m] that still holds
    what [current] holds at [key]. *)
Lemma merged_dict_step_present_eq rec list_diff_type current expected m key e :
  dict_get expected key = Some e ->
  dict_get m key = dict_get current key ->
  merged_dict_step rec (mkDataMergeUtils "present" list_diff_type)
    (VDict current) expected (VDict m) key
  = if is_dict_or_list e
       && is_dict_or_list (match dict_get current key with
                           | Some c => c
                           | None => VNone
                           end)
    then
      match dict_get current key with
      | Some c =>
          new <- rec (mkDataMergeUtils "present" list_diff_type) c e ;;
          Ret (VDict (dict_set m key new))
      | None => Raise KeyError
      end
    else if is_none e then Ret (VDict m)
    else Ret (VDict (dict_set m key e)).
Proof.
  intros He Hm.
  assert (Helse :
    merged_dict_else (mkDataMergeUtils "present" list_diff_type) expected
      (VDict m) key
    = if is_none e then Ret (VDict m) else Ret (VDict (dict_set m key e))).
  { unfold merged_dict_else. simpl. rewrite He. now destruct e. }
  unfold merged_dict_step. rewrite He.
  destruct (is_dict_or_list e) eqn:Ee; simpl andb; [|exact Helse].
  simpl py_get. destruct (dict_get current key) as [c|] eqn:Ec; simpl bind.
  - destruct (is_dict_or_list c) eqn:Ecc; [|exact Helse].
    simpl. rewrite Hm, He. reflexivity.
  - simpl. exact Helse.
Qed.

Section PresentKeys.
Variable rec : Method.
Variable n : nat.
Variable list_diff_type : string.
Variables current expected : Dict.

Hypothesis Hrec_total : forall c e,
  is_dict_or_list c = true -> is_dict_or_list e = true ->
  wf_value e -> depth e < n ->
  exists r, rec (mkDataMergeUtils "present" list_diff_type) c e = Ret r.

Lemma merged_dict_step_present_keys (m : Dict) (key : Key) (e : Value) :
  dict_get expected key = Some e ->
  wf_value e -> depth e < n ->
  dict_get m key = dict_get current key ->
  exists m1,
    merged_dict_step rec (mkDataMergeUtils "present" list_diff_type)
      (VDict current) expected (VDict m) key = Ret (VDict m1)
    /\ (forall k, k <> key -> dict_get m1 k = dict_get m k)
    /\ dict_keys m1
       = (dict_keys m
          ++ if negb (dict_mem current key) && negb (is_none e)
             then [key] else [])%list.
Proof.
  intros He Hwf Hd Hm.
  rewrite (merged_dict_step_present_eq _ _ _ _ _ _ e He Hm).
  assert (Hset : forall v,
    (forall k, k <> key -> dict_get (dict_set m key v) k = dict_get m k)
    /\ dict_keys (dict_set m key v)
       = (dict_keys m
          ++ if negb (dict_mem current key) then [key] else [])%list).
  { intros v. split.
    - intros k Hk. apply dict_get_set_other. congruence.
    - unfold dict_mem. destruct (dict_get current key) as [c|] eqn:Ec; simpl.
      + rewrite app_nil_r. apply dict_keys_set_mem.
        apply dict_mem_In. unfold dict_mem. now rewrite Hm.
      + apply dict_keys_set_new. apply dict_get_None_keys. congruence. }
  destruct (is_dict_or_list e
            && is_dict_or_list (match dict_get current key with
                                | Some c => c
                                | None => VNone
                                end)) eqn:Eb.
  - apply andb_true_iff in Eb as [Ee Ecc].
    destruct (dict_get current key) as [c|] eqn:Ec; [|discriminate].
    destruct (Hrec_total c e Ecc Ee Hwf Hd) as [r ->]. simpl.
    eexists. split; [reflexivity|].
    destruct (Hset r) as [H1 H2]. split; [exact H1|].
    rewrite H2. unfold dict_mem. rewrite Ec. reflexivity.
  - destruct (is_none e) eqn:En.
    + exists m. split; [reflexivity|]. split; trivial.
      rewrite andb_false_r. now rewrite app_nil_r.
    + eexists. split; [reflexivity|].
      destruct (Hset e) as [H1 H2]. split; [exact H1|].
      rewrite H2. now rewrite andb_true_r.
Qed.

Lemma merged_dict_loop_present_keys (ks : list Key) :
  forall m,
    NoDup ks ->
    (forall k, In k ks -> dict_get m k = dict_get current k) ->
    (forall k, In k ks ->
       exists e, dict_get expected k = Some e /\ wf_value e /\ depth e < n) ->
    exists m',
      for_each ks (VDict m)
        (merged_dict_step rec (mkDataMergeUtils "present" list_diff_type)
           (VDict current) expected) = Ret (VDict m')
      /\ dict_keys m'
         = (dict_keys m
            ++ filter (fun k =>
                         negb (dict_mem current k)
                         && negb (is_none (match dict_get expected k with
                                           | Some v => v
                                           | None => VNone
                                           end))) ks)%list.
Proof.
  induction ks as [|key rest IH]; intros m Hnd Hm He.
  - exists m. simpl. split; trivial. now rewrite app_nil_r.
  - inversion Hnd as [|? ? Hnotin Hnd']. subst.
    destruct (He key (or_introl eq_refl)) as (e & Hek & Hwf & Hd).
    destruct (merged_dict_step_present_keys m key e Hek Hwf Hd
                (Hm key (or_introl eq_refl))) as (m1 & Hs & Hoth & Hkeys).
    destruct (IH m1 Hnd') as (m' & Hrun & Hkeys').
    + intros k Hk. rewrite Hoth; [apply Hm; now right|].
      intros ->. contradiction.
    + intros k Hk. apply He. now right.
    + exists m'. simpl for_each. rewrite Hs. simpl bind.
      split; [exact Hrun|].
      rewrite Hkeys', Hkeys. simpl filter. rewrite Hek.
      rewrite <- app_assoc.
      now destruct (negb (dict_mem current key) && negb (is_none e)).
Qed.
End PresentKeys.

(** X8. Under [present], with a valid [list_diff_type] and a budget that
    covers the depth of [expected], the merged mapping holds the keys of
    [current] in their order, followed by the keys of [expected] that
    [current] does not hold and whose value is not [None], in the order of
    [expected]. *)
Theorem present_mapping_key_order :
  forall (fuel : nat) (list_diff_type : string) (current expected : Dict),
    list_diff_type = "value" \/ list_diff_type = "index" ->
    wf_value (VDict expected) ->
    depth (VDict expected) <= fuel ->
    exists merged,
      get_new_merged_dict fuel (mkDataMergeUtils "present" list_diff_type)
        (VDict current) (VDict expected) = Ret (VDict merged)
      /\ dict_keys merged
         = (dict_keys current ++ present_new_keys current expected)%list.
Proof.
  intros fuel ldt current expected Hldt Hwf Hd.
  apply wf_value_dict in Hwf as [Hnd Hvals].
  unfold get_new_merged_dict, get_new_merged_dict_of, _check_identic.
  simpl String.eqb. cbv iota. rewrite deepcopy_id.
  apply (merged_dict_loop_present_keys (get_new_merged_data fuel) fuel ldt
           current expected); trivial.
  - now apply present_composites_return.
  - intros k Hk. apply In_dict_keys_get in Hk as [e He].
    exists e. split; [exact He|]. apply dict_get_In in He.
    split; [now apply (Hvals k)|]. apply depth_dict_item in He. lia.
Qed.

Lemma present_mapping_key_order_witness :
  ("value" = "value" \/ "value" = "index")
  /\ wf_value (VDict [(KStr "Z", VInt 1); (KStr "N", VNone);
                      (KStr "A", VInt 2)])
  /\ depth (VDict [(KStr "Z", VInt 1); (KStr "N", VNone);
                   (KStr "A", VInt 2)]) <= 1
  /\ exists merged,
       get_new_merged_dict 1 (mkDataMergeUtils "present" "value")
         (VDict [(KStr "B", VInt 0); (KStr "A", VInt 0)])
         (VDict [(KStr "Z", VInt 1); (KStr "N", VNone); (KStr "A", VInt 2)])
       = Ret (VDict merged)
       /\ dict_keys merged = [KStr "B"; KStr "A"; KStr "Z"].
Proof.
  assert (H1 : "value" = "value" \/ "value" = "index") by now left.
  assert (H2 : wf_value (VDict [(KStr "Z", VInt 1); (KStr "N", VNone);
                                (KStr "A", VInt 2)])).
  { simpl. repeat split; trivial.
    repeat constructor; simpl; intuition discriminate. }
  assert (H3 : depth (VDict [(KStr "Z", VInt 1); (KStr "N", VNone);
                             (KStr "A", VInt 2)]) <= 1) by (simpl; lia).
  split; [exact H1|]. split; [exact H2|]. split; [exact H3|].
  apply (present_mapping_key_order 1 "value"
           [(KStr "B", VInt 0); (KStr "A", VInt 0)]
           [(KStr "Z", VInt 1); (KStr "N", VNone); (KStr "A", VInt 2)]
           H1 H2 H3).
Defined.

(* ------------------------------------------------------------------ *)
(** ** Merging a value with itself under [present] *)

Lemma In_dict_get_NoDup (d : Dict) (k : Key) (v : Value) :
  NoDup (dict_keys d) -> In (k, v) d -> dict_get d k = Some v.
Proof.
  induction d as [|[k' v'] r IH]; simpl; [tauto|].
  intros Hnd [E | Hin]; inversion Hnd; subst.
  - inversion E. subst. now rewrite key_eqb_refl.
  - destruct (key_eqb k' k) eqn:Ek; [|auto].
    apply key_eqb_eq in Ek. subst k'.
    apply (in_map fst) in Hin. contradiction.
Qed.

Lemma float_eqb_refl (f : PyFloat) : float_eqb f f = true.
Proof.
  destruct f as [neg | neg | neg m e]; simpl; trivial.
  - now destruct neg.
  - apply Z.eqb_refl.
Qed.

Lemma py_eq_refl (v : Value) : wf_value v -> py_eq v v = true.
Proof.
  induction v as [| b | i | f | s | l IH | d IH] using Value_tree_ind;
    intros Hwf; simpl; trivial.
  - now destruct b.
  - apply Z.eqb_refl.
  - apply float_eqb_refl.
  - apply String.eqb_refl.
  - pose proof (wf_value_list l Hwf) as Hel. clear Hwf.
    induction l as [|x r IHr]; trivial.
    inversion IH as [|? ? Hx Hr]. subst.
    rewrite Hx by (apply Hel; now left). simpl.
    apply IHr; trivial. intros y Hy. apply Hel. now right.
  - apply wf_value_dict in Hwf as [Hnd Hvals].
    rewrite Nat.eqb_refl. simpl.
    assert (Hsub : incl d d) by apply incl_refl.
    revert Hsub. generalize d at 1 4 as xs.
    induction xs as [|[k x] xr IHx]; intros Hsub; trivial.
    assert (Hin : In (k, x) d) by (apply Hsub; now left).
    rewrite (In_dict_get_NoDup d k x Hnd Hin).
    rewrite Forall_forall in IH.
    pose proof (IH (k, x) Hin (Hvals k x Hin)) as Hx. simpl in Hx.
    rewrite Hx. simpl.
    apply IHx. intros y Hy. apply Hsub. now right.
Qed.

Lemma py_in_self (l : list Value) (x : Value) :
  wf_value x -> In x l -> py_in x l = true.
Proof.
  intros Hwf Hin. unfold py_in. apply existsb_exists.
  exists x. split; trivial. now apply py_eq_refl.
Qed.

Lemma filter_none (A : Type) (f : A -> bool) (l : list A) :
  (forall x, In x l -> f x = false) -> filter f l = [].
Proof.
  induction l as [|x r IH]; simpl; intros H; trivial.
  rewrite (H x (or_introl eq_refl)). apply IH. auto.
Qed.

Lemma dict_set_same (d : Dict) (k : Key) (v : Value) :
  dict_get d k = Some v -> dict_set d k v = d.
Proof.
  induction d as [|[k' v'] r IH]; simpl; [discriminate|].
  destruct (key_eqb k' k) eqn:E.
  - intros [= ->]. reflexivity.
  - intros H. f_equal. auto.
Qed.

Lemma isinstance_type_of_self (x : Value) : isinstance_type_of x x = true.
Proof. now destruct x. Qed.

Section PresentSelf.
Variable rec : Method.
Variable n : nat.
Variable list_diff_type : string.
Hypothesis Hrec : forall e,
  is_dict_or_list e = true -> wf_value e -> depth e < n ->
  rec (mkDataMergeUtils "present" list_diff_type) e e = Ret e.

Lemma merged_dict_loop_present_self (d : Dict) (ks : list Key) :
  (forall k, In k ks ->
     exists e, dict_get d k = Some e /\ wf_value e /\ depth e < n) ->
  for_each ks (VDict d)
    (merged_dict_step rec (mkDataMergeUtils "present" list_diff_type)
       (VDict d) d) = Ret (VDict d).
Proof.
  induction ks as [|key rest IH]; intros He; trivial.
  destruct (He key (or_introl eq_refl)) as (e & Hek & Hwf & Hd).
  simpl for_each.
  rewrite (merged_dict_step_present_eq _ _ _ _ _ _ e Hek eq_refl).
  rewrite Hek, (dict_set_same d key e Hek).
  assert (Hstep :
    (if is_dict_or_list e && is_dict_or_list e
     then new <- rec (mkDataMergeUtils "present" list_diff_type) e e ;;
          Ret (VDict (dict_set d key new))
     else if is_none e then Ret (VDict d) else Ret (VDict d))
    = Ret (VDict d)).
  { destruct (is_dict_or_list e) eqn:Ee; simpl andb; cbv iota.
    - rewrite (Hrec e Ee Hwf Hd). simpl.
      now rewrite (dict_set_same d key e Hek).
    - now destruct (is_none e). }
  rewrite Hstep. simpl bind. apply IH. intros k Hk. apply He. now right.
Qed.
End PresentSelf.

Lemma present_self_merge (list_diff_type : string) :
  list_diff_type = "value" \/ list_diff_type = "index" ->
  forall (fuel : nat) (x : Value),
    is_dict_or_list x = true -> wf_value x -> depth x < fuel ->
    get_new_merged_data fuel (mkDataMergeUtils "present" list_diff_type) x x
    = Ret x.
Proof.
  intros Hldt. induction fuel as [|f IH]; intros x Hx Hwf Hd; [lia|].
  simpl. unfold get_new_merged_data_of, _check_identic.
  simpl String.eqb. cbv iota. rewrite isinstance_type_of_self.
  simpl negb. cbv iota.
  destruct x as [| | | | |l|d]; simpl in Hx; try discriminate.
  - simpl is_list. cbv iota.
    unfold get_new_merged_list_of, _check_identic.
    simpl String.eqb. cbv iota.
    destruct Hldt as [-> | ->]; simpl String.eqb; cbv iota.
    + unfold _get_new_merged_list_with_value_diff. simpl String.eqb.
      cbv iota. rewrite filter_none; [now rewrite app_nil_r|].
      intros y Hy. rewrite (py_in_self l y); trivial.
      now apply (wf_value_list l).
    + unfold _get_new_merged_list_with_index_diff_of, get_new_merged_dict_of,
        _check_identic.
      simpl String.eqb. cbv iota. rewrite deepcopy_id.
      rewrite (merged_dict_loop_present_self (get_new_merged_data f) f
                 "index" IH).
      * simpl. rewrite spec_positional_mapping_eq.
        now rewrite spec_positional_mapping_values.
      * intros k Hk. apply In_dict_keys_get in Hk as [v Hv].
        exists v. split; [exact Hv|].
        apply dict_get_In, convert_list_to_dict_In in Hv.
        split; [now apply (wf_value_list l)|].
        apply depth_list_item in Hv. lia.
  - simpl is_list. cbv iota.
    unfold get_new_merged_dict_of, _check_identic.
    simpl String.eqb. cbv iota. rewrite deepcopy_id.
    apply wf_value_dict in Hwf as [Hnd Hvals].
    apply (merged_dict_loop_present_self (get_new_merged_data f) f
             list_diff_type IH).
    intros k Hk. apply In_dict_keys_get in Hk as [v Hv].
    exists v. split; [exact Hv|]. apply dict_get_In in Hv.
    split; [now apply (Hvals k)|]. apply depth_dict_item in Hv. lia.
Qed.

(** X9. Under [present], with a valid [list_diff_type] and a budget above its
    depth, a dict or a list merged with itself comes back unchanged: the
    entries whose value is [None] stay, no element of a list is appended
    twice. *)
Theorem present_merge_with_itself :
  forall (fuel : nat) (list_diff_type : string) (x : Value),
    list_diff_type = "value" \/ list_diff_type = "index" ->
    is_dict_or_list x = true ->
    wf_value x ->
    depth x < fuel ->
    get_new_merged_data fuel (mkDataMergeUtils "present" list_diff_type) x x
    = Ret x.
Proof.
  intros fuel ldt x Hldt. now apply present_self_merge.
Qed.

Lemma present_merge_with_itself_witness :
  ("index" = "value" \/ "index" = "index")
  /\ is_dict_or_list (VDict [(KStr "A", VList [VNone; VInt 1])]) = true
  /\ wf_value (VDict [(KStr "A", VList [VNone; VInt 1])])
  /\ depth (VDict [(KStr "A", VList [VNone; VInt 1])]) < 3
  /\ get_new_merged_data 3 (mkDataMergeUtils "present" "index")
       (VDict [(KStr "A", VList [VNone; VInt 1])])
       (VDict [(KStr "A", VList [VNone; VInt 1])])
     = Ret (VDict [(KStr "A", VList [VNone; VInt 1])]).
Proof.
  assert (H1 : "index" = "value" \/ "index" = "index") by now right.
  assert (H2 : is_dict_or_list (VDict [(KStr "A", VList [VNone; VInt 1])])
               = true) by reflexivity.
  assert (H3 : wf_value (VDict [(KStr "A", VList [VNone; VInt 1])])).
  { simpl. repeat split; trivial. repeat constructor. simpl. tauto. }
  assert (H4 : depth (VDict [(KStr "A", VList [VNone; VInt 1])]) < 3)
    by (simpl; lia).
  split; [exact H1|]. split; [exact H2|]. split; [exact H3|].
  split; [exact H4|].
  apply (present_merge_with_itself 3 "index"
           (VDict [(KStr "A", VList [VNone; VInt 1])]) H1 H2 H3 H4).
Defined.

(* ------------------------------------------------------------------ *)
(** ** Merging twice with the same [expected], lists compared by value *)

Lemma py_in_app (x : Value) (a b : list Value) :
  py_in x (a ++ b) = py_in x a || py_in x b.
Proof. unfold py_in. apply existsb_app. Qed.

Lemma filter_filter (A : Type) (f : A -> bool) (l : list A) :
  filter f (filter f l) = filter f l.
Proof.
  induction l as [|x r IH]; simpl; trivial.
  destruct (f x) eqn:E; simpl; rewrite ?E, IH; reflexivity.
Qed.

Lemma value_diff_present_again (current expected : list Value) :
  wf_value (VList expected) ->
  filter (fun elem =>
            negb (py_in elem
                    (current
                     ++ filter (fun elem => negb (py_in elem current))
                          expected)))
    expected = [].
Proof.
  intros Hwf. apply filter_none. intros x Hx.
  rewrite py_in_app. destruct (py_in x current) eqn:E; trivial. simpl.
  rewrite py_in_self; trivial.
  - now apply (wf_value_list expected).
  - apply filter_In. split; trivial. now rewrite E.
Qed.

(** X10. With [list_diff_type] [value], merging the result of a merge once
    more with the same [expected] changes nothing, under [present] and
    under [absent]. *)
Theorem value_diff_merge_idempotent :
  forall (fuel : nat) (current expected : list Value),
    wf_value (VList expected) ->
    (exists r,
       get_new_merged_list fuel (mkDataMergeUtils "present" "value")
         (VList current) (VList expected) = Ret (VList r)
       /\ get_new_merged_list fuel (mkDataMergeUtils "present" "value")
            (VList r) (VList expected) = Ret (VList r))
    /\ (exists r,
          get_new_merged_list fuel (mkDataMergeUtils "absent" "value")
            (VList current) (VList expected) = Ret (VList r)
          /\ get_new_merged_list fuel (mkDataMergeUtils "absent" "value")
               (VList r) (VList expected) = Ret (VList r)).
Proof.
  intros fuel current expected Hwf. split.
  - eexists. split; [reflexivity|].
    unfold get_new_merged_list, get_new_merged_list_of, _check_identic,
      _get_new_merged_list_with_value_diff. simpl String.eqb. cbv iota.
    rewrite (value_diff_present_again current expected Hwf).
    now rewrite app_nil_r.
  - eexists. split; [reflexivity|].
    unfold get_new_merged_list, get_new_merged_list_of, _check_identic,
      _get_new_merged_list_with_value_diff. simpl String.eqb. cbv iota.
    now rewrite filter_filter.
Qed.

Lemma value_diff_merge_idempotent_witness :
  wf_value (VList [VInt 2; VInt 2])
  /\ exists r,
       get_new_merged_list 0 (mkDataMergeUtils "present" "value")
         (VList [VInt 1]) (VList [VInt 2; VInt 2]) = Ret (VList r)
       /\ get_new_merged_list 0 (mkDataMergeUtils "present" "value")
            (VList r) (VList [VInt 2; VInt 2]) = Ret (VList r).
Proof.
  assert (H : wf_value (VList [VInt 2; VInt 2])) by (simpl; tauto).
  split; [exact H|].
  apply (value_diff_merge_idempotent 0 [VInt 1] [VInt 2; VInt 2] H).
Defined.

Lemma for_each_step_dict rec self current expected (ks : list Key) :
  forall (m : Dict) (r : Value),
    for_each ks (VDict m) (merged_dict_step rec self current expected)
    = Ret r ->
    exists m', r = VDict m'.
Proof.
  induction ks as [|k rest IH]; intros m r; simpl.
  - intros [= <-]. eauto.
  - destruct (merged_dict_step rec self current expected (VDict m) k)
      as [s1| |] eqn:E; simpl; try discriminate.
    apply merged_dict_step_shape in E.
    destruct E as [-> | [[v ->] | [_ ->]]]; apply IH.
Qed.

Lemma merge_result_composite (fuel : nat) self (c e r : Value) :
  is_dict_or_list e = true ->
  _merge_type self = "present" ->
  get_new_merged_data fuel self c e = Ret r ->
  is_dict_or_list r = true.
Proof.
  intros He Hmt. destruct fuel as [|f]; simpl; [discriminate|].
  unfold get_new_merged_data_of, _check_identic. rewrite Hmt.
  simpl String.eqb. cbv iota.
  destruct (isinstance_type_of c e) eqn:Hi; simpl negb; cbv iota.
  2: { rewrite deepcopy_id. now intros [= <-]. }
  destruct c, e; simpl in He, Hi; try discriminate; simpl is_list; cbv iota.
  - unfold get_new_merged_list_of, _check_identic. rewrite Hmt.
    simpl String.eqb. cbv iota.
    destruct (String.eqb (_list_diff_type self) "value").
    + unfold _get_new_merged_list_with_value_diff. rewrite Hmt. simpl.
      now intros [= <-].
    + destruct (String.eqb (_list_diff_type self) "index"); [|discriminate].
      unfold _get_new_merged_list_with_index_diff_of.
      destruct (get_new_merged_dict_of _ _ _ _) as [md| |]; simpl;
        try discriminate.
      destruct md; simpl; try discriminate. now intros [= <-].
  - unfold get_new_merged_dict_of, _check_identic. rewrite Hmt.
    simpl String.eqb. cbv iota. rewrite deepcopy_id.
    intros H. apply for_each_step_dict in H as [m' ->]. reflexivity.
Qed.

Section PresentTwice.
Variable rec : Method.
Variable n : nat.
Variable list_diff_type : string.
Variables current expected : Dict.

Hypothesis Hrec_again : forall c e r,
  is_dict_or_list e = true -> wf_value e -> depth e < n ->
  rec (mkDataMergeUtils "present" list_diff_type) c e = Ret r ->
  rec (mkDataMergeUtils "present" list_diff_type) r e = Ret r.
Hypothesis Hrec_self : forall e,
  is_dict_or_list e = true -> wf_value e -> depth e < n ->
  rec (mkDataMergeUtils "present" list_diff_type) e e = Ret e.
Hypothesis Hrec_composite : forall c e r,
  is_dict_or_list e = true ->
  rec (mkDataMergeUtils "present" list_diff_type) c e = Ret r ->
  is_dict_or_list r = true.

Lemma merged_dict_loop_present_outcome (ks : list Key) :
  forall (m : Dict) (r : Value),
    NoDup ks ->
    (forall k, In k ks -> dict_get m k = dict_get current k) ->
    (forall k, In k ks -> exists e, dict_get expected k = Some e) ->
    for_each ks (VDict m)
      (merged_dict_step rec (mkDataMergeUtils "present" list_diff_type)
         (VDict current) expected) = Ret r ->
    exists m',
      r = VDict m'
      /\ (forall k, ~ In k ks -> dict_get m' k = dict_get m k)
      /\ (forall k e, In k ks -> dict_get expected k = Some e ->
          present_key_outcome rec (mkDataMergeUtils "present" list_diff_type)
            current k e (dict_get m' k)).
Proof.
  induction ks as [|key rest IH]; intros m r Hnd Hm He Hrun.
  - simpl in Hrun. inversion Hrun. subst. exists m.
    repeat split; trivial. intros k e [].
  - inversion Hnd as [|? ? Hnotin Hnd']. subst.
    destruct (He key (or_introl eq_refl)) as [e Hek].
    pose proof (Hm key (or_introl eq_refl)) as Hmk.
    simpl in Hrun.
    rewrite (merged_dict_step_present_eq _ _ _ _ _ _ e Hek Hmk) in Hrun.
    assert (Hstep : exists m1,
      for_each rest (VDict m1)
        (merged_dict_step rec (mkDataMergeUtils "present" list_diff_type)
           (VDict current) expected) = Ret r
      /\ (forall k, k <> key -> dict_get m1 k = dict_get m k)
      /\ present_key_outcome rec (mkDataMergeUtils "present" list_diff_type)
           current key e (dict_get m1 key)).
    { unfold present_key_outcome.
      destruct (dict_get current key) as [c|] eqn:Ec.
      - destruct (is_dict_or_list e && is_dict_or_list c) eqn:Eb.
        + destruct (rec _ c e) as [new| |] eqn:Er; simpl in Hrun;
            try discriminate.
          eexists. split; [exact Hrun|]. split.
          * intros k Hk. apply dict_get_set_other. congruence.
          * exists new. split; trivial. apply dict_get_set_same.
        + destruct (is_none e) eqn:En; simpl in Hrun.
          * exists m. repeat split; trivial; congruence.
          * eexists. split; [exact Hrun|]. split.
            -- intros k Hk. apply dict_get_set_other. congruence.
            -- apply dict_get_set_same.
      - rewrite andb_false_r in Hrun.
        destruct (is_none e) eqn:En; simpl in Hrun.
        + exists m. repeat split; trivial; congruence.
        + eexists. split; [exact Hrun|]. split.
          * intros k Hk. apply dict_get_set_other. congruence.
          * apply dict_get_set_same. }
    destruct Hstep as (m1 & Hrun1 & Hoth1 & Hat1).
    destruct (IH m1 r Hnd') as (m' & -> & Hoth & Hat); trivial.
    + intros k Hk. rewrite Hoth1; [apply Hm; now right|].
      intros ->. contradiction.
    + intros k Hk. apply He. now right.
    + exists m'. split; [reflexivity|]. split.
      * intros k Hk. rewrite Hoth by (intros H; apply Hk; now right).
        apply Hoth1. intros ->. apply Hk. now left.
      * intros k e0 [-> | Hk] Hek0.
        -- rewrite Hoth by exact Hnotin.
           assert (e0 = e) by congruence. now subst e0.
        -- now apply (Hat k e0).
Qed.

Lemma merged_dict_loop_present_stable (m' : Dict) (ks : list Key) :
  (forall k, In k ks ->
     exists e, dict_get expected k = Some e /\ wf_value e /\ depth e < n
               /\ present_key_outcome rec
                    (mkDataMergeUtils "present" list_diff_type)
                    current k e (dict_get m' k)) ->
  for_each ks (VDict m')
    (merged_dict_step rec (mkDataMergeUtils "present" list_diff_type)
       (VDict m') expected) = Ret (VDict m').
Proof.
  induction ks as [|key rest IH]; intros He; trivial.
  destruct (He key (or_introl eq_refl)) as (e & Hek & Hwf & Hd & Hout).
  simpl for_each.
  rewrite (merged_dict_step_present_eq _ _ _ _ _ _ e Hek eq_refl).
  assert (Hstep :
    (if is_dict_or_list e
        && is_dict_or_list (match dict_get m' key with
                            | Some c => c
                            | None => VNone
                            end)
     then
       match dict_get m' key with
       | Some c =>
           new <- rec (mkDataMergeUtils "present" list_diff_type) c e ;;
           Ret (VDict (dict_set m' key new))
       | None => Raise KeyError
       end
     else if is_none e then Ret (VDict m')
     else Ret (VDict (dict_set m' key e)))
    = Ret (VDict m')).
  { unfold present_key_outcome in Hout.
    destruct (is_dict_or_list e) eqn:Ee; simpl andb; cbv iota.
    - assert (Hn : is_none e = false) by (now destruct e).
      assert (Hgood : exists v,
                dict_get m' key = Some v
                /\ rec (mkDataMergeUtils "present" list_diff_type) v e = Ret v
                /\ is_dict_or_list v = true).
      { destruct (dict_get current key) as [c|].
        - simpl andb in Hout. destruct (is_dict_or_list c).
          + destruct Hout as (r1 & Hr1 & ->). exists r1.
            split; trivial. split; [now apply (Hrec_again c)|].
            now apply (Hrec_composite c e).
          + rewrite Hn in Hout. exists e. split; trivial.
            split; [now apply Hrec_self | trivial].
        - rewrite Hn in Hout. exists e. split; trivial.
          split; [now apply Hrec_self | trivial]. }
      destruct Hgood as (v & Hv & Hrv & Hcv).
      rewrite Hv, Hcv, Hrv. simpl. now rewrite (dict_set_same m' key v Hv).
    - destruct (is_none e) eqn:En; trivial.
      assert (Hv : dict_get m' key = Some e).
      { destruct (dict_get current key) as [c|]; trivial. }
      now rewrite (dict_set_same m' key e Hv). }
  rewrite Hstep. simpl bind. apply IH. intros k Hk. apply He. now right.
Qed.
End PresentTwice.

Lemma present_value_again (fuel : nat) :
  forall c e r : Value,
    is_dict_or_list e = true -> wf_value e -> depth e < fuel ->
    get_new_merged_data fuel (mkDataMergeUtils "present" "value") c e = Ret r ->
    get_new_merged_data fuel (mkDataMergeUtils "present" "value") r e = Ret r.
Proof.
  induction fuel as [|f IH]; intros c e r He Hwf Hd Hrun; [lia|].
  assert (Hself : forall x, is_dict_or_list x = true -> wf_value x ->
            forall g, depth x < g ->
            get_new_merged_data g (mkDataMergeUtils "present" "value") x x
            = Ret x).
  { intros x Hx Hwx g Hg. apply present_self_merge; auto. }
  simpl in Hrun. unfold get_new_merged_data_of, _check_identic in Hrun.
  simpl String.eqb in Hrun. cbv iota in Hrun.
  destruct (isinstance_type_of c e) eqn:Hi; simpl negb in Hrun;
    cbv iota in Hrun.
  2: { rewrite deepcopy_id in Hrun. inversion Hrun. subst r.
       now apply Hself. }
  destruct c as [| | | | |lc|dc], e as [| | | | |le|de]; simpl in He, Hi;
    try discriminate; simpl is_list in Hrun; cbv iota in Hrun.
  - (* two lists *)
    unfold get_new_merged_list_of, _check_identic,
      _get_new_merged_list_with_value_diff in Hrun.
    simpl String.eqb in Hrun. cbv iota in Hrun. inversion Hrun. subst r.
    simpl. unfold get_new_merged_data_of, get_new_merged_list_of,
      _check_identic, _get_new_merged_list_with_value_diff.
    simpl. rewrite (value_diff_present_again lc le Hwf).
    now rewrite app_nil_r.
  - (* two dicts *)
    unfold get_new_merged_dict_of, _check_identic in Hrun.
    simpl String.eqb in Hrun. cbv iota in Hrun. rewrite deepcopy_id in Hrun.
    apply wf_value_dict in Hwf as [Hnd Hvals].
    destruct (merged_dict_loop_present_outcome (get_new_merged_data f)
                "value" dc de (dict_keys de) dc r Hnd)
      as (m' & -> & _ & Hat); trivial.
    { intros k Hk. now apply In_dict_keys_get. }
    cbn [get_new_merged_data].
    unfold get_new_merged_data_of, _check_identic.
    simpl String.eqb. cbv iota. simpl isinstance_type_of. simpl negb.
    cbv iota. simpl is_list. cbv iota.
    unfold get_new_merged_dict_of, _check_identic.
    simpl String.eqb. cbv iota. rewrite deepcopy_id.
    apply (merged_dict_loop_present_stable (get_new_merged_data f) f
             "value" dc de).
    + intros c0 e0 r0 H1 H2 H3 H4. now apply (IH c0 e0 r0).
    + intros e0 H1 H2 H3. now apply Hself.
    + intros c0 e0 r0 H1 H2.
      apply (merge_result_composite f
               (mkDataMergeUtils "present" "value") c0 e0 r0 H1); trivial.
    + intros k Hk. pose proof Hk as Hk'.
      apply In_dict_keys_get in Hk as [e0 He0]. exists e0.
      split; [exact He0|]. pose proof (dict_get_In _ _ _ He0) as Hin.
      split; [now apply (Hvals k)|].
      split; [apply depth_dict_item in Hin; lia|].
      now apply Hat.
Qed.

(** X11. Under [present] with lists compared by value, a merge whose
    [expected] is a dict or a list reaches a fixed point at once: merging
    its result once more with the same [expected] gives that result
    again, through every nested dict and list. *)
Theorem present_value_merge_idempotent :
  forall (fuel : nat) (current expected r : Value),
    is_dict_or_list expected = true ->
    wf_value expected ->
    depth expected < fuel ->
    get_new_merged_data fuel (mkDataMergeUtils "present" "value")
      current expected = Ret r ->
    get_new_merged_data fuel (mkDataMergeUtils "present" "value")
      r expected = Ret r.
Proof. intros fuel; apply present_value_again. Qed.

Lemma present_value_merge_idempotent_witness :
  is_dict_or_list (VDict [(KStr "A", VList [VInt 2]); (KStr "B", VInt 3)])
  = true
  /\ wf_value (VDict [(KStr "A", VList [VInt 2]); (KStr "B", VInt 3)])
  /\ depth (VDict [(KStr "A", VList [VInt 2]); (KStr "B", VInt 3)]) < 3
  /\ get_new_merged_data 3 (mkDataMergeUtils "present" "value")
       (VDict [(KStr "A", VList [VInt 1])])
       (VDict [(KStr "A", VList [VInt 2]); (KStr "B", VInt 3)])
     = Ret (VDict [(KStr "A", VList [VInt 1; VInt 2]); (KStr "B", VInt 3)])
  /\ get_new_merged_data 3 (mkDataMergeUtils "present" "value")
       (VDict [(KStr "A", VList [VInt 1; VInt 2]); (KStr "B", VInt 3)])
       (VDict [(KStr "A", VList [VInt 2]); (KStr "B", VInt 3)])
     = Ret (VDict [(KStr "A", VList [VInt 1; VInt 2]); (KStr "B", VInt 3)]).
Proof.
  assert (H1 : is_dict_or_list
                 (VDict [(KStr "A", VList [VInt 2]); (KStr "B", VInt 3)])
               = true) by reflexivity.
  assert (H2 : wf_value
                 (VDict [(KStr "A", VList [VInt 2]); (KStr "B", VInt 3)])).
  { simpl. repeat split; trivial.
    repeat constructor; simpl; intuition discriminate. }
  assert (H3 : depth (VDict [(KStr "A", VList [VInt 2]); (KStr "B", VInt 3)])
               < 3) by (simpl; lia).
  assert (H4 : get_new_merged_data 3 (mkDataMergeUtils "present" "value")
                 (VDict [(KStr "A", VList [VInt 1])])
                 (VDict [(KStr "A", VList [VInt 2]); (KStr "B", VInt 3)])
               = Ret (VDict [(KStr "A", VList [VInt 1; VInt 2]);
                             (KStr "B", VInt 3)])) by reflexivity.
  split; [exact H1|]. split; [exact H2|]. split; [exact H3|].
  split; [exact H4|].
  apply (present_value_merge_idempotent 3 _ _ _ H1 H2 H3 H4).
Defined.

(* ------------------------------------------------------------------ *)
(** ** Merging by index, position by position *)

Lemma dict_get_mid (pre rest : Dict) (k : Key) (c : Value) :
  ~ In k (dict_keys pre) ->
  dict_get (pre ++ (k, c) :: rest)%list k = Some c.
Proof.
  intros H. rewrite dict_get_app, (dict_get_notin pre k H). simpl.
  now rewrite key_eqb_refl.
Qed.

Lemma dict_set_mid (pre rest : Dict) (k : Key) (c v : Value) :
  ~ In k (dict_keys pre) ->
  dict_set (pre ++ (k, c) :: rest)%list k v = (pre ++ (k, v) :: rest)%list.
Proof.
  induction pre as [|[k' v'] r IH]; simpl; intros H.
  - now rewrite key_eqb_refl.
  - destruct (key_eqb k' k) eqn:E.
    + apply key_eqb_eq in E. tauto.
    + f_equal. apply IH. tauto.
Qed.

Lemma dict_del_mid (pre rest : Dict) (k : Key) (c : Value) :
  ~ In k (dict_keys pre) ->
  dict_del (pre ++ (k, c) :: rest)%list k = (pre ++ rest)%list.
Proof.
  induction pre as [|[k' v'] r IH]; simpl; intros H.
  - now rewrite key_eqb_refl.
  - destruct (key_eqb k' k) eqn:E.
    + apply key_eqb_eq in E. tauto.
    + f_equal. apply IH. tauto.
Qed.

Section IndexZip.
Variable rec : Method.
Variable self : DataMergeUtils.
Hypothesis Hmt : _merge_type self = "present" \/ _merge_type self = "absent".
Variables current expected : Dict.

Lemma index_step_both (pre rest : Dict) (key : Key) (c e : Value) :
  dict_get expected key = Some e ->
  dict_get current key = Some c ->
  ~ In key (dict_keys pre) ->
  merged_dict_step rec self (VDict current) expected
    (VDict (pre ++ (key, c) :: rest)%list) key
  = (head <- index_position rec self c e ;;
     Ret (VDict (pre ++ map (pair key) head ++ rest)%list)).
Proof.
  intros He Hc Hk.
  assert (Hm : dict_get (pre ++ (key, c) :: rest)%list key
               = dict_get current key)
    by (rewrite Hc; now apply dict_get_mid).
  unfold index_position. destruct self as [mt ldt]. simpl in Hmt.
  destruct Hmt as [-> | ->]; simpl String.eqb; cbv iota.
  - rewrite (merged_dict_step_present_eq _ _ _ _ _ _ e He Hm), Hc.
    destruct (is_dict_or_list e && is_dict_or_list c).
    + destruct (rec _ c e) as [r| |]; simpl; trivial.
      now rewrite dict_set_mid.
    + destruct (is_none e); simpl; trivial. now rewrite dict_set_mid.
  - rewrite (merged_dict_step_absent _ _ _ _ _ _ e He Hm), Hc.
    destruct (is_dict_or_list e && is_dict_or_list c).
    + destruct (rec _ c e) as [r| |]; simpl; trivial.
      now rewrite dict_set_mid.
    + destruct (py_eq c e); simpl; trivial. now rewrite dict_del_mid.
Qed.

Lemma index_step_leftover (pre : Dict) (key : Key) (e : Value) :
  dict_get expected key = Some e ->
  dict_get current key = None ->
  ~ In key (dict_keys pre) ->
  merged_dict_step rec self (VDict current) expected (VDict pre) key
  = (head <- index_leftover self e ;;
     Ret (VDict (pre ++ map (pair key) head)%list)).
Proof.
  intros He Hc Hk.
  assert (Hm : dict_get pre key = dict_get current key)
    by (rewrite Hc; now apply dict_get_notin).
  unfold index_leftover. destruct self as [mt ldt]. simpl in Hmt.
  destruct Hmt as [-> | ->]; simpl String.eqb; cbv iota.
  - rewrite (merged_dict_step_present_eq _ _ _ _ _ _ e He Hm), Hc.
    rewrite andb_false_r.
    destruct (is_none e); simpl; [now rewrite app_nil_r|].
    now rewrite dict_set_new.
  - rewrite (merged_dict_step_absent _ _ _ _ _ _ e He Hm), Hc.
    destruct (is_none e); simpl; trivial. now rewrite app_nil_r.
Qed.

Lemma index_loop (er : list Value) :
  forall (cr : list Value) (j : Z) (pre : Dict),
    (forall k, In k (dict_keys pre) -> exists z, k = KInt z /\ (z < j)%Z) ->
    (forall i : nat,
       dict_get current (KInt (j + Z.of_nat i)) = nth_error cr i) ->
    (forall i : nat,
       dict_get expected (KInt (j + Z.of_nat i)) = nth_error er i) ->
    (d <- for_each (dict_keys (spec_positional_mapping j er))
            (VDict (pre ++ spec_positional_mapping j cr)%list)
            (merged_dict_step rec self (VDict current) expected) ;;
     _convert_dict_to_list d)
    = (l <- index_zip rec self cr er ;;
       Ret (VList (dict_values pre ++ l))).
Proof.
  induction er as [|e er' IH]; intros cr j pre Hpre Hc He.
  - simpl. unfold dict_values. rewrite map_app.
    pose proof (spec_positional_mapping_values cr j) as Hv.
    unfold dict_values in Hv. now rewrite Hv.
  - assert (Hk : ~ In (KInt j) (dict_keys pre)).
    { intros H. apply Hpre in H as (z & Hz & Hlt). inversion Hz. lia. }
    assert (Hej : dict_get expected (KInt j) = Some e).
    { specialize (He 0). simpl in He. now rewrite Z.add_0_r in He. }
    assert (Hshift_e : forall i : nat,
              dict_get expected (KInt (j + 1 + Z.of_nat i)) = nth_error er' i).
    { intros i. pose proof (He (S i)) as Hi. cbn [nth_error] in Hi.
      rewrite <- Hi. do 2 f_equal. lia. }
    assert (Hpre' : forall head k,
              In k (dict_keys (pre ++ map (pair (KInt j)) head)%list) ->
              exists z, k = KInt z /\ (z < j + 1)%Z).
    { intros head k Hin. unfold dict_keys in Hin. rewrite map_app in Hin.
      apply in_app_or in Hin as [Hin | Hin].
      - destruct (Hpre k Hin) as (z & -> & Hz). exists z. split; trivial. lia.
      - rewrite map_map in Hin. simpl in Hin. apply in_map_iff in Hin
          as (v & <- & _). exists j. split; trivial. lia. }
    assert (Hvals : forall head,
              dict_values (pre ++ map (pair (KInt j)) head)%list
              = (dict_values pre ++ head)%list).
    { intros head. unfold dict_values. rewrite map_app, map_map. simpl.
      now rewrite map_id. }
    simpl spec_positional_mapping. simpl dict_keys. simpl for_each.
    destruct cr as [|c cr'].
    + simpl spec_positional_mapping. rewrite app_nil_r.
      assert (Hcj : dict_get current (KInt j) = None).
      { specialize (Hc 0). simpl in Hc. now rewrite Z.add_0_r in Hc. }
      rewrite (index_step_leftover pre (KInt j) e Hej Hcj Hk).
      simpl index_zip.
      destruct (index_leftover self e) as [head| |]; simpl bind; trivial.
      specialize (IH [] (j + 1)%Z (pre ++ map (pair (KInt j)) head)%list
                    (Hpre' head)).
      simpl spec_positional_mapping in IH. rewrite app_nil_r in IH.
      rewrite IH; trivial.
      * destruct (index_zip rec self [] er') as [tail| |]; simpl; trivial.
        now rewrite Hvals, app_assoc.
      * intros i. pose proof (Hc (S i)) as Hi. cbn [nth_error] in Hi.
        replace (nth_error (@nil Value) i) with (@None Value)
          by (now destruct i).
        rewrite <- Hi. do 2 f_equal. lia.
    + simpl spec_positional_mapping.
      assert (Hcj : dict_get current (KInt j) = Some c).
      { specialize (Hc 0). simpl in Hc. now rewrite Z.add_0_r in Hc. }
      rewrite (index_step_both pre (spec_positional_mapping (j + 1) cr')
                 (KInt j) c e Hej Hcj Hk).
      simpl index_zip.
      destruct (index_position rec self c e) as [head| |]; simpl bind;
        trivial.
      rewrite app_assoc.
      rewrite (IH cr' (j + 1)%Z (pre ++ map (pair (KInt j)) head)%list
                 (Hpre' head)); trivial.
      * destruct (index_zip rec self cr' er') as [tail| |]; simpl; trivial.
        now rewrite Hvals, app_assoc.
      * intros i. pose proof (Hc (S i)) as Hi. cbn [nth_error] in Hi.
        rewrite <- Hi. do 2 f_equal. lia.
Qed.
End IndexZip.

Lemma index_diff_zip (fuel : nat) (self : DataMergeUtils)
  (current expected : list Value) :
  _merge_type self = "present" \/ _merge_type self = "absent" ->
  _get_new_merged_list_with_index_diff fuel self current expected
  = (l <- index_zip (get_new_merged_data fuel) self current expected ;;
     Ret (VList l)).
Proof.
  intros Hmt.
  unfold _get_new_merged_list_with_index_diff,
    _get_new_merged_list_with_index_diff_of, get_new_merged_dict_of,
    _check_identic.
  assert (Hid : String.eqb (_merge_type self) "identic" = false)
    by (destruct Hmt as [-> | ->]; reflexivity).
  rewrite Hid, deepcopy_id, !spec_positional_mapping_eq.
  apply (index_loop (get_new_merged_data fuel) self Hmt
           (spec_positional_mapping 0 current)
           (spec_positional_mapping 0 expected)
           expected current 0%Z []).
  - intros k [].
  - intros i. apply (spec_positional_mapping_get current 0%Z i).
  - intros i. apply (spec_positional_mapping_get expected 0%Z i).
Qed.

(** X12. Under [present] and under [absent], merging two lists by index is a
    walk over the positions of [expected]. Where [current] has an element
    too, the two are merged when both are a dict or a list; otherwise
    [present] keeps the expected element, or the current one when the
    expected one is [None], and [absent] drops the current element when
    the two are equal. Where [current] has run out, [present] appends the
    expected elements that are not [None], and [absent] raises [KeyError]
    on a [None] and ignores anything else. The elements of [current]
    beyond the length of [expected] follow unchanged. *)
Theorem index_diff_position_by_position :
  forall (fuel : nat) (self : DataMergeUtils) (current expected : list Value),
    _merge_type self = "present" \/ _merge_type self = "absent" ->
    _get_new_merged_list_with_index_diff fuel self current expected
    = (l <- index_zip (get_new_merged_data fuel) self current expected ;;
       Ret (VList l)).
Proof. intros fuel self current expected. apply index_diff_zip. Qed.

Lemma index_diff_position_by_position_witness :
  ("present" = "present" \/ "present" = "absent")
  /\ _get_new_merged_list_with_index_diff 0
       (mkDataMergeUtils "present" "index")
       [VInt 4] [VNone; VNone; VInt 7]
     = Ret (VList [VInt 4; VInt 7]).
Proof.
  assert (H : _merge_type (mkDataMergeUtils "present" "index") = "present"
              \/ _merge_type (mkDataMergeUtils "present" "index") = "absent")
    by now left.
  split; [exact H|].
  apply (index_diff_position_by_position 0
           (mkDataMergeUtils "present" "index")
           [VInt 4] [VNone; VNone; VInt 7] H).
Defined.

Lemma index_zip_present_nones rec list_diff_type (current tail : list Value) :
  index_zip rec (mkDataMergeUtils "present" list_diff_type) current
    (repeat VNone (List.length current) ++ tail)
  = (l <- index_zip rec (mkDataMergeUtils "present" list_diff_type) [] tail ;;
     Ret (current ++ l)%list).
Proof.
  induction current as [|c cr IH]; simpl repeat; simpl app.
  - destruct (index_zip rec _ [] tail); reflexivity.
  - simpl index_zip. unfold index_position. simpl.
    rewrite IH.
    destruct (index_zip rec _ [] tail); reflexivity.
Qed.

(** X13. Under [present], merging by index is not idempotent. When [expected]
    holds [None] at every position of [current] and at the next one, and
    then an element [v] that is not [None], the merge appends [v] at the
    end of [current]; merging the result with the same [expected] appends
    [v] once more. *)
Theorem present_index_merge_appends_again :
  forall (fuel : nat) (current : list Value) (v : Value),
    is_none v = false ->
    get_new_merged_list fuel (mkDataMergeUtils "present" "index")
      (VList current)
      (VList (repeat VNone (S (List.length current)) ++ [v]))
    = Ret (VList (current ++ [v]))
    /\ get_new_merged_list fuel (mkDataMergeUtils "present" "index")
         (VList (current ++ [v]))
         (VList (repeat VNone (S (List.length current)) ++ [v]))
       = Ret (VList (current ++ [v; v])).
Proof.
  intros fuel current v Hv.
  assert (Hrun : forall cur tail,
    get_new_merged_list fuel (mkDataMergeUtils "present" "index")
      (VList cur) (VList (repeat VNone (List.length cur) ++ tail))
    = (l <- index_zip (get_new_merged_data fuel)
              (mkDataMergeUtils "present" "index") [] tail ;;
       Ret (VList (cur ++ l)))).
  { intros cur tail.
    change (get_new_merged_list fuel (mkDataMergeUtils "present" "index")
              (VList cur) (VList (repeat VNone (List.length cur) ++ tail)))
      with (_get_new_merged_list_with_index_diff fuel
              (mkDataMergeUtils "present" "index") cur
              (repeat VNone (List.length cur) ++ tail)).
    rewrite index_diff_zip by (now left).
    rewrite index_zip_present_nones.
    destruct (index_zip _ _ [] tail); reflexivity. }
  split.
  - replace (repeat VNone (S (List.length current)) ++ [v])%list
      with (repeat VNone (List.length current) ++ [VNone; v])%list.
    + rewrite Hrun. simpl. unfold index_leftover. simpl. now rewrite Hv.
    + change [VNone; v] with ([VNone] ++ [v])%list.
      rewrite app_assoc. f_equal.
      change [VNone] with (repeat VNone 1).
      rewrite <- repeat_app. f_equal. lia.
  - replace (S (List.length current)) with (List.length (current ++ [v]))
      by (rewrite length_app; simpl; lia).
    rewrite Hrun. simpl. unfold index_leftover. simpl. rewrite Hv. simpl.
    now rewrite <- app_assoc.
Qed.

Lemma present_index_merge_appends_again_witness :
  is_none (VInt 7) = false
  /\ get_new_merged_list 0 (mkDataMergeUtils "present" "index")
       (VList [VInt 4; VInt 7])
       (VList [VNone; VNone; VInt 7])
     = Ret (VList [VInt 4; VInt 7; VInt 7]).
Proof.
  assert (H : is_none (VInt 7) = false) by reflexivity.
  split; [exact H|].
  apply (present_index_merge_appends_again 0 [VInt 4] (VInt 7) H).
Defined.

(* ------------------------------------------------------------------ *)
(** ** The length of a merged list *)

Lemma index_zip_length rec self (expected : list Value) :
  forall (current l : list Value),
    index_zip rec self current expected = Ret l ->
    (_merge_type self = "present" -> List.length current <= List.length l)
    /\ (_merge_type self = "absent" -> List.length l <= List.length current).
Proof.
  induction expected as [|e er IH]; intros current l; simpl.
  - intros [= <-]. split; intros _; lia.
  - destruct current as [|c cr].
    + destruct (index_leftover self e) as [head| |] eqn:Eh; simpl;
        try discriminate.
      destruct (index_zip rec self [] er) as [tail| |] eqn:Et; simpl;
        try discriminate.
      intros [= <-]. destruct (IH [] tail Et) as [_ Ha].
      split; [simpl; lia|]. intros Hmt. specialize (Ha Hmt).
      unfold index_leftover in Eh. rewrite Hmt in Eh. simpl in Eh.
      destruct (is_none e); inversion Eh. subst. simpl in *. lia.
    + destruct (index_position rec self c e) as [head| |] eqn:Eh; simpl;
        try discriminate.
      destruct (index_zip rec self cr er) as [tail| |] eqn:Et; simpl;
        try discriminate.
      intros [= <-]. destruct (IH cr tail Et) as [Hp Ha].
      rewrite length_app. unfold index_position in Eh.
      split; intros Hmt; [specialize (Hp Hmt) | specialize (Ha Hmt)];
        rewrite Hmt in Eh; simpl in Eh;
        destruct (is_dict_or_list e && is_dict_or_list c);
        try (destruct (rec self c e); simpl in Eh; inversion Eh; subst;
             simpl; lia);
        try (destruct (is_none e); inversion Eh; subst; simpl; lia);
        try (destruct (py_eq c e); inversion Eh; subst; simpl; lia).
Qed.

Lemma filter_length_le (A : Type) (f : A -> bool) (l : list A) :
  List.length (filter f l) <= List.length l.
Proof. induction l as [|x r IH]; simpl; [lia|]. destruct (f x); simpl; lia. Qed.

(** X14. Whichever way lists are compared, a list merged under [present] is
    never shorter than [current] and a list merged under [absent] is never
    longer. *)
Theorem merged_list_length :
  forall (fuel : nat) (self : DataMergeUtils) (current expected : list Value)
         (r : Value),
    get_new_merged_list fuel self (VList current) (VList expected) = Ret r ->
    exists l,
      r = VList l
      /\ (_merge_type self = "present" ->
          List.length current <= List.length l)
      /\ (_merge_type self = "absent" ->
          List.length l <= List.length current).
Proof.
  intros fuel self current expected r.
  unfold get_new_merged_list, get_new_merged_list_of, _check_identic.
  destruct (String.eqb (_merge_type self) "identic") eqn:Eid.
  { rewrite deepcopy_id. intros [= <-]. exists expected.
    apply String.eqb_eq in Eid.
    split; trivial. split; intros H; rewrite H in Eid; discriminate. }
  destruct (String.eqb (_list_diff_type self) "value").
  - unfold _get_new_merged_list_with_value_diff.
    destruct (String.eqb (_merge_type self) "present") eqn:Ep.
    + intros [= <-]. eexists. split; [reflexivity|].
      apply String.eqb_eq in Ep. rewrite length_app.
      split; intros H; [lia | rewrite H in Ep; discriminate].
    + destruct (String.eqb (_merge_type self) "absent") eqn:Ea;
        [|discriminate].
      intros [= <-]. eexists. split; [reflexivity|].
      split; intros H.
      * rewrite H in Ep. discriminate.
      * apply filter_length_le.
  - destruct (String.eqb (_list_diff_type self) "index"); [|discriminate].
    fold (_get_new_merged_list_with_index_diff fuel self current expected).
    destruct (String.eqb (_merge_type self) "present") eqn:Ep.
    + apply String.eqb_eq in Ep.
      rewrite index_diff_zip by (now left).
      destruct (index_zip _ self current expected) as [l| |] eqn:Ez; simpl;
        try discriminate.
      intros [= <-]. exists l. split; trivial.
      now apply (index_zip_length (get_new_merged_data fuel) self expected).
    + destruct (String.eqb (_merge_type self) "absent") eqn:Ea.
      * apply String.eqb_eq in Ea.
        rewrite index_diff_zip by (now right).
        destruct (index_zip _ self current expected) as [l| |] eqn:Ez; simpl;
          try discriminate.
        intros [= <-]. exists l. split; trivial.
        now apply (index_zip_length (get_new_merged_data fuel) self expected).
      * intros H. unfold _get_new_merged_list_with_index_diff,
          _get_new_merged_list_with_index_diff_of in H.
        destruct (get_new_merged_dict_of _ self _ _) as [md| |] eqn:Ed;
          simpl in H; try discriminate.
        unfold get_new_merged_dict_of, _check_identic in Ed.
        rewrite Eid, deepcopy_id in Ed.
        apply for_each_step_dict in Ed as [m' ->]. simpl in H.
        inversion H. eexists. split; [reflexivity|].
        apply String.eqb_neq in Ep, Ea. split; intros E; contradiction.
Qed.

Lemma merged_list_length_witness :
  get_new_merged_list 0 (mkDataMergeUtils "absent" "index")
    (VList [VInt 4; VInt 5; VInt 6]) (VList [VNone; VInt 7; VInt 6])
  = Ret (VList [VInt 4; VInt 5])
  /\ exists l,
       VList [VInt 4; VInt 5] = VList l
       /\ List.length l <= List.length [VInt 4; VInt 5; VInt 6].
Proof.
  assert (H : get_new_merged_list 0 (mkDataMergeUtils "absent" "index")
                (VList [VInt 4; VInt 5; VInt 6])
                (VList [VNone; VInt 7; VInt 6])
              = Ret (VList [VInt 4; VInt 5])) by reflexivity.
  split; [exact H|].
  destruct (merged_list_length 0 _ _ _ _ H) as (l & Hl & _ & Ha).
  exists l. split; [exact Hl|]. apply Ha. reflexivity.
Defined.

(* ------------------------------------------------------------------ *)
(** ** The dispatcher on an [expected] that is no dict and no list *)

(** X15. Under [present] and under [absent], when [expected] is neither a dict
    nor a list, the dispatcher raises [AttributeError] if [current] is an
    instance of the class of [expected], and otherwise returns [expected]
    under [present] and [current] under [absent]. The class test is not
    symmetric: a [bool] is an instance of [int], so a [bool] merged with
    an [int] raises while an [int] merged with a [bool] returns; [None]
    merged with [None] raises. *)
Theorem dispatcher_on_scalar_expected :
  forall (fuel : nat) (list_diff_type : string) (current expected : Value),
    is_dict_or_list expected = false ->
    (isinstance_type_of current expected = true ->
     get_new_merged_data (S fuel) (mkDataMergeUtils "present" list_diff_type)
       current expected = Raise AttributeError
     /\ get_new_merged_data (S fuel) (mkDataMergeUtils "absent" list_diff_type)
          current expected = Raise AttributeError)
    /\ (isinstance_type_of current expected = false ->
        get_new_merged_data (S fuel)
          (mkDataMergeUtils "present" list_diff_type) current expected
        = Ret expected
        /\ get_new_merged_data (S fuel)
             (mkDataMergeUtils "absent" list_diff_type) current expected
           = Ret current)
    /\ (forall (b : bool) (i : Z),
          isinstance_type_of (VBool b) (VInt i) = true
          /\ isinstance_type_of (VInt i) (VBool b) = false)
    /\ isinstance_type_of VNone VNone = true.
Proof.
  intros fuel ldt current expected He. split; [|split; [|split]].
  - intros Hi.
    destruct current, expected; simpl in He, Hi; try discriminate;
      split; reflexivity.
  - intros Hi. simpl. unfold get_new_merged_data_of, _check_identic. simpl.
    rewrite Hi. simpl. rewrite !deepcopy_id. split; reflexivity.
  - intros b i. split; reflexivity.
  - reflexivity.
Qed.

Lemma dispatcher_on_scalar_expected_witness :
  is_dict_or_list (VInt 1) = false
  /\ isinstance_type_of (VBool true) (VInt 1) = true
  /\ get_new_merged_data 1 (mkDataMergeUtils "present" "value")
       (VBool true) (VInt 1) = Raise AttributeError.
Proof.
  assert (H1 : is_dict_or_list (VInt 1) = false) by reflexivity.
  assert (H2 : isinstance_type_of (VBool true) (VInt 1) = true)
    by reflexivity.
  split; [exact H1|]. split; [exact H2|].
  apply (dispatcher_on_scalar_expected 0 "value" (VBool true) (VInt 1) H1).
  exact H2.
Defined.

(* ------------------------------------------------------------------ *)
(** ** Construction and reconfiguration *)

Lemma str_in_merge_types (value : string) :
  str_in value ["identic"; "present"; "absent"] = true
  <-> value = "identic" \/ value = "present" \/ value = "absent".
Proof.
  unfold str_in. simpl. rewrite !orb_true_iff, !String.eqb_eq.
  intuition discriminate.
Qed.

Lemma str_in_list_diff_types (value : string) :
  str_in value ["value"; "index"] = true
  <-> value = "value" \/ value = "index".
Proof.
  unfold str_in. simpl. rewrite !orb_true_iff, !String.eqb_eq.
  intuition discriminate.
Qed.

(** X16. The constructor returns an object exactly when [merge_type] is
    [identic], [present] or [absent], whatever [list_diff_type] is, and
    the object holds both arguments. Assigning its own [list_diff_type]
    to that object through the property then succeeds exactly when the
    configuration is valid, and leaves the object as it is. *)
Theorem construction_then_list_diff_type_setter :
  forall (merge_type list_diff_type : string) (self : DataMergeUtils),
    (__init__ merge_type list_diff_type = Ret self
     <-> (merge_type = "identic" \/ merge_type = "present"
          \/ merge_type = "absent")
         /\ self = mkDataMergeUtils merge_type list_diff_type)
    /\ ((s <- __init__ merge_type list_diff_type ;;
         set_list_diff_type s list_diff_type) = Ret self
        <-> valid_config self
            /\ self = mkDataMergeUtils merge_type list_diff_type).
Proof.
  intros mt ldt self. unfold __init__, set_merge_type, set_list_diff_type,
    valid_config.
  destruct (str_in mt ["identic"; "present"; "absent"]) eqn:Em;
    cbn [negb bind _merge_type _list_diff_type].
  - pose proof (proj1 (str_in_merge_types mt) Em) as Hm.
    destruct (str_in ldt ["value"; "index"]) eqn:El;
      cbn [negb bind _merge_type _list_diff_type].
    + pose proof (proj1 (str_in_list_diff_types ldt) El) as Hl.
      split; split.
      * intros H. inversion H. subst. split; trivial.
      * intros [_ ->]. reflexivity.
      * intros H. inversion H. subst. simpl. repeat split; trivial.
      * intros [_ ->]. reflexivity.
    + split; split.
      * intros H. inversion H. subst. split; trivial.
      * intros [_ ->]. reflexivity.
      * discriminate.
      * intros [[_ Hl] ->]. simpl in Hl.
        apply str_in_list_diff_types in Hl. congruence.
  - split; split; try discriminate.
    + intros [Hm _]. apply str_in_merge_types in Hm. congruence.
    + intros [[Hm _] ->]. simpl in Hm.
      apply str_in_merge_types in Hm. congruence.
Qed.
